(** * QuickQL: the fluent SQL query builder of [src/quickql/builder.py]

    A shallow embedding of the builder (element model, clause store,
    clause dispatch [add], fluent accessors, rendering [build]) together
    with the parts of Python's [str] and [textwrap] the builder calls.

    Conventions.
    - A Python [str] is a [string]; the character [c : ascii] stands for the
      code point of the same number (the Latin-1 range), and the character
      classes below are Python's classes of those code points.
    - A mutable object is a value threaded through the calls; a call that
      can raise returns the state it leaves behind together with an
      [outcome], because a raised exception does not undo earlier writes.
    - The dictionary [Query._clauses] is a [gmap] from keywords to clause
      stores; a failed subscription [d[k]] is [KeyError]. *)

From Stdlib Require Import ZArith Ascii String.
From stdpp Require Import gmap strings list fin_maps pretty.


(** ** Python [str] methods used by the builder *)
Module PyStr.

Definition code (c : ascii) : N := N_of_ascii c.

(** [str.isspace] on one character. *)
Definition isspace_char (c : ascii) : bool :=
  let n := code c in
  ((9 <=? n) && (n <=? 13) || (28 <=? n) && (n <=? 32)
   || (n =? 133) || (n =? 160))%N.

(** Characters at which [str.splitlines] breaks a line. *)
Definition is_linebreak (c : ascii) : bool :=
  let n := code c in
  ((10 <=? n) && (n <=? 13) || (28 <=? n) && (n <=? 30) || (n =? 133))%N.

Definition isupper_char (c : ascii) : bool :=
  let n := code c in
  ((65 <=? n) && (n <=? 90)
   || (192 <=? n) && (n <=? 222) && negb (n =? 215))%N.

Definition islower_char (c : ascii) : bool :=
  let n := code c in
  ((97 <=? n) && (n <=? 122) || (n =? 170) || (n =? 181) || (n =? 186)
   || (223 <=? n) && (n <=? 255) && negb (n =? 247))%N.

(** Truth value of a string: [bool(s)]. *)
Definition truthy (s : string) : bool :=
  match s with EmptyString => false | String _ _ => true end.

Fixpoint lstrip (s : string) : string :=
  match s with
  | EmptyString => EmptyString
  | String c s' => if isspace_char c then lstrip s' else s
  end.

Fixpoint rstrip (s : string) : string :=
  match s with
  | EmptyString => EmptyString
  | String c s' =>
      match rstrip s' with
      | EmptyString =>
          if isspace_char c then EmptyString else String c EmptyString
      | r => String c r
      end
  end.

Definition strip (s : string) : string := lstrip (rstrip s).

(** [s.isspace()]: at least one character and all of them whitespace. *)
Fixpoint all_space (s : string) : bool :=
  match s with
  | EmptyString => true
  | String c s' => isspace_char c && all_space s'
  end.

Definition isspace (s : string) : bool := truthy s && all_space s.

(** [s.split()] with no separator: the maximal runs of non-whitespace. *)
Fixpoint split (s : string) : list string :=
  match s with
  | EmptyString => []
  | String c s' =>
      if isspace_char c then split s'
      else
        match s' with
        | EmptyString => [String c EmptyString]
        | String c' _ =>
            if isspace_char c' then String c EmptyString :: split s'
            else
              match split s' with
              | tok :: toks => String c tok :: toks
              | [] => [String c EmptyString]
              end
        end
  end.

Fixpoint startswith (s prefix : string) : bool :=
  match prefix, s with
  | EmptyString, _ => true
  | String a p, String b s' => Ascii.eqb a b && startswith s' p
  | String _ _, EmptyString => false
  end.

(** [needle in s]. *)
Fixpoint contains (s needle : string) : bool :=
  startswith s needle
  || match s with
     | EmptyString => false
     | String _ s' => contains s' needle
     end.

Fixpoint drop (n : nat) (s : string) : string :=
  match n, s with
  | O, _ => s
  | S _, EmptyString => EmptyString
  | S k, String _ s' => drop k s'
  end.

(** [s.replace(old, new)] for a non-empty [old]; [skip] counts the
    characters of a match that are still to be passed over. *)
Fixpoint replace_from (old new : string) (skip : nat) (s : string) : string :=
  match s with
  | EmptyString => EmptyString
  | String c s' =>
      match skip with
      | S k => replace_from old new k s'
      | O =>
          if startswith s old
          then new +:+ replace_from old new (String.length old - 1) s'
          else String c (replace_from old new 0 s')
      end
  end.

Definition replace (s old new : string) : string := replace_from old new 0 s.

(** [s.isupper()]: no lowercase character and at least one uppercase one. *)
Fixpoint isupper_from (cased : bool) (s : string) : bool :=
  match s with
  | EmptyString => cased
  | String c s' =>
      if islower_char c then false
      else isupper_from (cased || isupper_char c) s'
  end.

Definition isupper (s : string) : bool := isupper_from false s.

(** [sep.join(parts)]. *)
Fixpoint join (sep : string) (parts : list string) : string :=
  match parts with
  | [] => EmptyString
  | [x] => x
  | x :: rest => x +:+ sep +:+ join sep rest
  end.

(** [s.splitlines(True)]: the lines with their line ends kept; a carriage
    return followed by a line feed is one line end. *)
Fixpoint splitlines_keepends (s : string) : list string :=
  match s with
  | EmptyString => []
  | String c s' =>
      if is_linebreak c then
        match s' with
        | EmptyString => [String c EmptyString]
        | String c2 s'' =>
            if ((code c =? 13) && (code c2 =? 10))%N
            then String c (String c2 EmptyString) :: splitlines_keepends s''
            else String c EmptyString :: splitlines_keepends s'
        end
      else
        match splitlines_keepends s' with
        | line :: lines => String c line :: lines
        | [] => [String c EmptyString]
        end
  end.

(** [s.split("\n")]. *)
Fixpoint split_lf (s : string) : list string :=
  match s with
  | EmptyString => [EmptyString]
  | String c s' =>
      if (code c =? 10)%N then EmptyString :: split_lf s'
      else
        match split_lf s' with
        | line :: lines => String c line :: lines
        | [] => [String c EmptyString]
        end
  end.

(** [s * n]. *)
Fixpoint repeat_str (s : string) (n : nat) : string :=
  match n with
  | O => EmptyString
  | S k => s +:+ repeat_str s k
  end.

End PyStr.

(** The line feed, Python's ["\n"]. *)
Definition LF : string := String (ascii_of_N 10) EmptyString.

(** ** The functions of Python's [textwrap] used by the builder
    (standard library of CPython 3.11; its regular expressions are
    evaluated line by line here, a line being what lies between line
    feeds). *)
Module Textwrap.

(** The character class of the two regular expressions: space and tab. *)
Definition is_blank (c : ascii) : bool :=
  ((PyStr.code c =? 32) || (PyStr.code c =? 9))%N.

Fixpoint all_blank (s : string) : bool :=
  match s with
  | EmptyString => true
  | String c s' => is_blank c && all_blank s'
  end.

(** A line matched by [_whitespace_only_re]: one or more blanks, no more. *)
Definition whitespace_only (line : string) : bool :=
  PyStr.truthy line && all_blank line.

Fixpoint leading_blanks (line : string) : string :=
  match line with
  | EmptyString => EmptyString
  | String c rest =>
      if is_blank c then String c (leading_blanks rest) else EmptyString
  end.

(** The group captured by [_leading_whitespace_re] on a line (blanks from
    the line start, then one character that is no blank and no line feed):
    the leading blanks, when another character follows them. *)
Definition leading_whitespace (line : string) : option string :=
  let indent := leading_blanks line in
  if PyStr.truthy (PyStr.drop (String.length indent) line)
  then Some indent else None.

Fixpoint common_prefix (a b : string) : string :=
  match a, b with
  | String x a', String y b' =>
      if Ascii.eqb x y then String x (common_prefix a' b') else EmptyString
  | _, _ => EmptyString
  end.

(** One round of the loop of [dedent] over the indents. *)
Definition narrow (margin : option string) (indent : string) : option string :=
  match margin with
  | None => Some indent
  | Some m =>
      if PyStr.startswith indent m then Some m
      else if PyStr.startswith m indent then Some indent
      else Some (common_prefix m indent)
  end.

Definition remove_margin (margin line : string) : string :=
  if PyStr.startswith line margin
  then PyStr.drop (String.length margin) line else line.

Definition dedent (text : string) : string :=
  let lines :=
    map (fun line => if whitespace_only line then EmptyString else line)
        (PyStr.split_lf text) in
  let indents := omap leading_whitespace lines in
  match foldl narrow None indents with
  | Some margin =>
      if PyStr.truthy margin
      then PyStr.join LF (map (remove_margin margin) lines)
      else PyStr.join LF lines
  | None => PyStr.join LF lines
  end.

(** [indent(text, prefix)] with the default predicate: the prefix goes in
    front of every line that is not whitespace only. *)
Definition indent (text prefix : string) : string :=
  PyStr.join EmptyString
    (map (fun line =>
            if PyStr.truthy (PyStr.strip line) then prefix +:+ line else line)
         (PyStr.splitlines_keepends text)).

End Textwrap.

(** ** Python values passed as clause fragments

    A fragment is an atom or a flat tuple or list of atoms.

    An [int] is one that [str()] and [repr()] print: CPython 3.11 refuses,
    with a [ValueError], to convert an integer of more than
    [sys.int_max_str_digits] decimal digits, 4300 unless it is reset, the
    sign not counted.  The integers beyond that limit are no values of
    the model. *)
Definition int_max_str_digits : N := 4300.

Definition decimal_digits (n : Z) : N :=
  N.of_nat (String.length (pretty (Z.abs n))).

Definition printable (n : Z) : bool :=
  (decimal_digits n <=? int_max_str_digits)%N.

Record PyInteger := mk_int {
  int_value : Z;
  int_printable : printable int_value = true
}.

Inductive PyAtom :=
| PyStrV (s : string)
| PyNone
| PyInt (n : PyInteger)
| PyBool (b : bool).

Inductive PyArg :=
| Plain (a : PyAtom)
| PyTuple (items : list PyAtom)
| PyList (items : list PyAtom).

(** [str(x)]. *)
Definition py_str (x : PyAtom) : string :=
  match x with
  | PyStrV s => s
  | PyNone => "None"
  | PyInt n => pretty (int_value n)
  | PyBool true => "True"
  | PyBool false => "False"
  end.

(** ** The two enumerations *)
Inductive SQLKeyword :=
| WITH | SELECT | FROM | WHERE | GROUP_BY | HAVING | ORDER_BY | LIMIT.

Inductive SQLFlag := DISTINCT | ALL.

(** Iteration order of [for keyword in SQLKeyword]. *)
Definition SQLKeyword_members : list SQLKeyword :=
  [WITH; SELECT; FROM; WHERE; GROUP_BY; HAVING; ORDER_BY; LIMIT].

Definition SQLFlag_members : list SQLFlag := [DISTINCT; ALL].

Definition SQLKeyword_value (k : SQLKeyword) : string :=
  match k with
  | WITH => "WITH" | SELECT => "SELECT" | FROM => "FROM" | WHERE => "WHERE"
  | GROUP_BY => "GROUP BY" | HAVING => "HAVING" | ORDER_BY => "ORDER BY"
  | LIMIT => "LIMIT"
  end.

Definition SQLFlag_value (f : SQLFlag) : string :=
  match f with DISTINCT => "DISTINCT" | ALL => "ALL" end.

(** [SQLKeyword(s)]: the member whose value is [s]; [None] stands for the
    [ValueError] of a failed lookup. *)
Definition SQLKeyword_of_value (s : string) : option SQLKeyword :=
  find (fun k => String.eqb (SQLKeyword_value k) s) SQLKeyword_members.

Definition SQLFlag_of_value (s : string) : option SQLFlag :=
  find (fun f => String.eqb (SQLFlag_value f) s) SQLFlag_members.

#[global] Instance SQLKeyword_eq_dec : EqDecision SQLKeyword.
Proof. solve_decision. Defined.

#[global] Instance SQLFlag_eq_dec : EqDecision SQLFlag.
Proof. solve_decision. Defined.

Definition SQLKeyword_index (k : SQLKeyword) : nat :=
  match k with
  | WITH => 0 | SELECT => 1 | FROM => 2 | WHERE => 3
  | GROUP_BY => 4 | HAVING => 5 | ORDER_BY => 6 | LIMIT => 7
  end.

#[global] Instance SQLKeyword_countable : Countable SQLKeyword.
Proof.
  refine (inj_countable' SQLKeyword_index
            (fun n => nth n SQLKeyword_members LIMIT) _).
  intros k. destruct k; reflexivity.
Defined.

(** ** Exceptions

    The builder raises [ValueError] with three different messages; the
    constructors keep what each message names. *)
Inductive exn :=
| InvalidArgument (arg : PyArg)
    (* ValueError: Invalid argument format: {arg!r} *)
| UnsupportedClause (clause : string)
    (* ValueError: Unsupported SQL clause: {actual_clause} *)
| FlagConflict (held new : string)
    (* ValueError: Flag already set to '{self.flag}', cannot set '{flag}' *)
| IndexError
    (* parts[0] on an empty list *)
| KeyError (k : SQLKeyword)
| AttributeError (name : string).

Inductive outcome (A : Type) :=
| Return (a : A)
| Raise (e : exn).
Arguments Return {A} a.
Arguments Raise {A} e.

(** [_normalize_sql(text)]. *)
Definition _normalize_sql (text : PyAtom) : string :=
  PyStr.strip (Textwrap.dedent (PyStr.rstrip (py_str text))).

(** [_indent_text(text, spaces)]. *)
Definition _indent_text (text : string) (spaces : nat) : string :=
  Textwrap.indent text (PyStr.repeat_str " " spaces).

(** ** [class QueryElement] *)
Module QueryElement.

Record t := mk {
  value : string;
  alias : string;
  join_keyword : string;
  is_subquery : bool
}.

(** The keyword arguments [add] may pass on; an absent one leaves the
    field at its default. *)
Record kwargs := mk_kwargs {
  kw_join_keyword : option string;
  kw_is_subquery : option bool
}.

Definition make (value alias : string) (kw : kwargs) : t :=
  {| value := value;
     alias := alias;
     join_keyword := default "" (kw_join_keyword kw);
     is_subquery := default false (kw_is_subquery kw) |}.

Definition create (arg : PyArg) (kw : kwargs) : outcome t :=
  match arg with
  | Plain (PyStrV s) => Return (make (_normalize_sql (PyStrV s)) "" kw)
  | PyTuple [alias; value] | PyList [alias; value] =>
      Return (make (_normalize_sql value) (_normalize_sql alias) kw)
  | _ => Raise (InvalidArgument arg)
  end.

End QueryElement.

(** ** [class ClauseCollection] *)
Module ClauseCollection.

Record t := mk {
  elements : list QueryElement.t;
  flag : option string
}.

(** [__init__]. *)
Definition init : t := {| elements := []; flag := None |}.

Definition add_element (self : t) (element : QueryElement.t) : t :=
  {| elements := elements self ++ [element]; flag := flag self |}.

(** The test [if self.flag]: a flag is held and it is not empty. *)
Definition holds_flag (self : t) : bool :=
  match flag self with
  | Some held => PyStr.truthy held
  | None => false
  end.

Definition set_flag (self : t) (new : string) : t * outcome unit :=
  match flag self with
  | Some held =>
      if PyStr.truthy held then (self, Raise (FlagConflict held new))
      else ({| elements := elements self; flag := Some new |}, Return tt)
  | None => ({| elements := elements self; flag := Some new |}, Return tt)
  end.

Definition is_empty (self : t) : bool :=
  Nat.eqb (length (elements self)) 0.

(** [__iter__]: what a loop over the store goes through. *)
Definition __iter__ (self : t) : list QueryElement.t := elements self.

Definition __len__ (self : t) : nat := length (elements self).

End ClauseCollection.

(** ** [class Query] *)
Module Query.

Record t := mk { _clauses : gmap SQLKeyword ClauseCollection.t }.

Definition CLAUSE_SEPARATORS : list (SQLKeyword * string) :=
  [(WHERE, " AND "); (HAVING, " AND ")].

Definition DEFAULT_SEPARATOR : string := ", ".

Definition FLAGGABLE_KEYWORDS : list (SQLKeyword * list SQLFlag) :=
  [(SELECT, [DISTINCT; ALL])].

Definition SUBQUERY_KEYWORDS : list SQLKeyword := [WITH].

Definition JOIN_ALIASES : list (string * string) :=
  [("JOIN", "FROM"); ("INNER JOIN", "FROM"); ("LEFT JOIN", "FROM");
   ("RIGHT JOIN", "FROM"); ("FULL JOIN", "FROM"); ("CROSS JOIN", "FROM")].

(** [d.get(k)] on a dictionary written as an association list. *)
Definition assoc {K V : Type} `{EqDecision K}
    (d : list (K * V)) (k : K) : option V :=
  snd <$> find (fun kv => bool_decide (fst kv = k)) d.

(** [__init__]: one empty clause store per keyword. *)
Definition init : t :=
  {| _clauses :=
       list_to_map
         (map (fun keyword => (keyword, ClauseCollection.init))
              SQLKeyword_members) |}.

(** The first join marker, in the order of [JOIN_ALIASES], contained in
    the clause name decides. *)
Definition _resolve_join_alias (clause_name : string) : string * string :=
  match find (fun entry => PyStr.contains clause_name (fst entry))
             JOIN_ALIASES with
  | Some (_, actual_clause) => (actual_clause, clause_name)
  | None => (clause_name, "")
  end.

Definition _parse_flag (clause_name : string) : outcome (string * string) :=
  match PyStr.split clause_name with
  | [_] => Return (clause_name, "")
  | [] => Raise IndexError
  | base_clause :: potential_flag :: _ =>
      match SQLKeyword_of_value base_clause with
      | Some keyword =>
          match assoc FLAGGABLE_KEYWORDS keyword with
          | Some flags =>
              match SQLFlag_of_value potential_flag with
              | Some flag =>
                  if bool_decide (flag ∈ flags)
                  then Return (base_clause, potential_flag)
                  else Return (clause_name, "")
              | None => Return (clause_name, "")
              end
          | None => Return (clause_name, "")
          end
      | None => Return (clause_name, "")
      end
  end.

(** The keyword arguments built in the loop of [add]. *)
Definition element_kwargs (keyword : SQLKeyword) (join_keyword : string)
    : QueryElement.kwargs :=
  {| QueryElement.kw_join_keyword :=
       if PyStr.truthy join_keyword then Some join_keyword else None;
     QueryElement.kw_is_subquery :=
       if bool_decide (keyword ∈ SUBQUERY_KEYWORDS) then Some true else None |}.

(** The loop [for arg in args] of [add] on the clause store it fills; the
    store comes back as the loop left it, also when an argument raises. *)
Fixpoint add_elements (clause_collection : ClauseCollection.t)
    (keyword : SQLKeyword) (join_keyword : string) (args : list PyArg)
    : ClauseCollection.t * outcome unit :=
  match args with
  | [] => (clause_collection, Return tt)
  | arg :: rest =>
      match QueryElement.create arg (element_kwargs keyword join_keyword) with
      | Raise e => (clause_collection, Raise e)
      | Return element =>
          add_elements (ClauseCollection.add_element clause_collection element)
                       keyword join_keyword rest
      end
  end.

(** Steps 1 to 3 of [add]: join alias, flag, keyword. *)
Definition resolve (clause_name : string)
    : outcome (SQLKeyword * string * string) :=
  let '(actual_clause, join_keyword) := _resolve_join_alias clause_name in
  match _parse_flag actual_clause with
  | Raise e => Raise e
  | Return (actual_clause, flag) =>
      match SQLKeyword_of_value actual_clause with
      | None => Raise (UnsupportedClause actual_clause)
      | Some keyword => Return (keyword, flag, join_keyword)
      end
  end.

(** The clause store is an object of the dictionary: what [add] does to it
    is seen through [self._clauses]. *)
Definition store (self : t) (keyword : SQLKeyword)
    (clause_collection : ClauseCollection.t) : t :=
  {| _clauses := <[keyword := clause_collection]> (_clauses self) |}.

Definition add (self : t) (clause_name : string) (args : list PyArg)
    : t * outcome unit :=
  match resolve clause_name with
  | Raise e => (self, Raise e)
  | Return (keyword, flag, join_keyword) =>
      match _clauses self !! keyword with
      | None => (self, Raise (KeyError keyword))
      | Some clause_collection =>
          let '(clause_collection, flagged) :=
            if PyStr.truthy flag
            then ClauseCollection.set_flag clause_collection flag
            else (clause_collection, Return tt) in
          match flagged with
          | Raise e => (store self keyword clause_collection, Raise e)
          | Return _ =>
              let '(clause_collection, added) :=
                add_elements clause_collection keyword join_keyword args in
              (store self keyword clause_collection, added)
          end
      end
  end.

(** [__getattr__(name)], reached for a name that is no attribute of the
    object: the clause name of the returned function, or the error. *)
Definition __getattr__ (name : string) : outcome string :=
  if PyStr.isupper name then Return (PyStr.replace name "_" " ")
  else Raise (AttributeError name).

(** The names that normal attribute lookup finds on a [Query] object, for
    which Python does not come to [__getattr__]: those of the class body,
    the attribute set by [__init__], and those every object and class
    have (CPython 3.11). *)
Definition attributes : list string :=
  ["CLAUSE_SEPARATORS"; "DEFAULT_SEPARATOR"; "FLAGGABLE_KEYWORDS";
   "SUBQUERY_KEYWORDS"; "JOIN_ALIASES"; "_clauses";
   "add"; "build"; "_resolve_join_alias"; "_parse_flag";
   "_group_elements_by_join"; "_format_element";
   "__init__"; "__getattr__"; "__str__";
   "__annotations__"; "__class__"; "__delattr__"; "__dict__"; "__dir__";
   "__doc__"; "__eq__"; "__format__"; "__ge__"; "__getattribute__";
   "__getstate__"; "__gt__"; "__hash__"; "__init_subclass__"; "__le__";
   "__lt__"; "__module__"; "__ne__"; "__new__"; "__reduce__";
   "__reduce_ex__"; "__repr__"; "__setattr__"; "__sizeof__";
   "__subclasshook__"; "__weakref__"].

(** [self.NAME(args)] for a name that is none of [attributes], the case
    in which the lookup ends in [__getattr__]. *)
Definition call (self : t) (name : string) (args : list PyArg)
    : t * outcome unit :=
  match __getattr__ name with
  | Return clause_name => add self clause_name args
  | Raise e => (self, Raise e)
  end.

(** [groups[join_key].append(element)]. *)
Fixpoint group_append (groups : list (string * list QueryElement.t))
    (join_key : string) (element : QueryElement.t)
    : list (string * list QueryElement.t) :=
  match groups with
  | [] => []
  | (key, members) :: rest =>
      if String.eqb key join_key then (key, members ++ [element]) :: rest
      else (key, members) :: group_append rest join_key element
  end.

(** One round of the loop of [_group_elements_by_join] on the dictionary
    of groups, kept in insertion order. *)
Definition group_step (groups : list (string * list QueryElement.t))
    (element : QueryElement.t) : list (string * list QueryElement.t) :=
  let join_key := QueryElement.join_keyword element in
  let groups :=
    if bool_decide (join_key ∈ groups.*1) then groups
    else groups ++ [(join_key, [])] in
  group_append groups join_key element.

Definition _group_elements_by_join (elements : list QueryElement.t)
    : list (string * list QueryElement.t) :=
  foldl group_step [("", [])] elements.

Definition _format_element (keyword : SQLKeyword) (element : QueryElement.t)
    : string :=
  let value := QueryElement.value element in
  let value :=
    if QueryElement.is_subquery element
    then "(" +:+ LF +:+ _indent_text value 4 +:+ LF +:+ ")"
    else value in
  if PyStr.truthy (QueryElement.alias element) then
    if bool_decide (keyword = WITH)
    then QueryElement.alias element +:+ " AS " +:+ value
    else value +:+ " AS " +:+ QueryElement.alias element
  else value.

Definition separator (keyword : SQLKeyword) : string :=
  default DEFAULT_SEPARATOR (assoc CLAUSE_SEPARATORS keyword).

(** What one round of the loop over the groups appends to [sql_parts]. *)
Definition group_parts (keyword : SQLKeyword)
    (group : string * list QueryElement.t) : list string :=
  let '(join_keyword, elements) := group in
  (if PyStr.truthy join_keyword then [join_keyword] else [])
  ++ [_indent_text
        (PyStr.join (separator keyword)
           (map (_format_element keyword) elements)) 4].

(** The keyword, followed by the flag when [clause.flag] is true. *)
Definition keyword_line (keyword : SQLKeyword) (clause : ClauseCollection.t)
    : string :=
  match ClauseCollection.flag clause with
  | Some flag =>
      if PyStr.truthy flag then SQLKeyword_value keyword +:+ " " +:+ flag
      else SQLKeyword_value keyword
  | None => SQLKeyword_value keyword
  end.

(** What one round of the loop over the keywords appends to [sql_parts]. *)
Definition clause_parts (keyword : SQLKeyword) (clause : ClauseCollection.t)
    : list string :=
  if ClauseCollection.is_empty clause then []
  else
    keyword_line keyword clause
    :: concat (map (group_parts keyword)
                 (_group_elements_by_join (ClauseCollection.elements clause))).

Fixpoint build_parts (self : t) (keywords : list SQLKeyword)
    (sql_parts : list string) : outcome (list string) :=
  match keywords with
  | [] => Return sql_parts
  | keyword :: rest =>
      match _clauses self !! keyword with
      | None => Raise (KeyError keyword)
      | Some clause =>
          build_parts self rest (sql_parts ++ clause_parts keyword clause)
      end
  end.

Definition build (self : t) : outcome string :=
  match build_parts self SQLKeyword_members [] with
  | Return sql_parts => Return (PyStr.join LF sql_parts)
  | Raise e => Raise e
  end.

(** [__str__]. *)
Definition __str__ (self : t) : outcome string := build self.

End Query.

(** ** Notions the properties are stated with

    A builder is reachable when it is [Query()] or what a call of [add]
    leaves behind on a reachable builder, whether the call returned or
    raised. *)
Inductive reachable : Query.t -> Prop :=
| reachable_init : reachable Query.init
| reachable_add self clause_name args :
    reachable self -> reachable (Query.add self clause_name args).1.

(** The keys of a dictionary of groups in the order in which the loop of
    [_group_elements_by_join] meets new ones, [seen] being the keys that
    are there already. *)
Fixpoint first_seen (seen keys : list string) : list string :=
  match keys with
  | [] => []
  | key :: rest =>
      if bool_decide (key ∈ seen) then first_seen seen rest
      else key :: first_seen (seen ++ [key]) rest
  end.

(** The elements of a clause that carry a given join keyword. *)
Definition tagged_with (join_key : string) (elements : list QueryElement.t)
    : list QueryElement.t :=
  filter (fun element => QueryElement.join_keyword element = join_key) elements.

(** A fragment [QueryElement.create] accepts: a [str], or a tuple or list
    of two items. *)
Definition accepted_fragment (arg : PyArg) : bool :=
  match arg with
  | Plain (PyStrV _) => true
  | PyTuple [_; _] | PyList [_; _] => true
  | _ => false
  end.

(** The call [Query().NAME(text)] chained as in the source: the builder
    the chain has reached, or the exception that stopped it. *)
Definition chain (receiver : outcome Query.t) (name : string)
    (args : list PyArg) : outcome Query.t :=
  match receiver with
  | Raise e => Raise e
  | Return self =>
      match Query.call self name args with
      | (self', Return _) => Return self'
      | (_, Raise e) => Raise e
      end
  end.

(** An element [add] makes of a fragment for a keyword and a join
    keyword. *)
Definition created (keyword : SQLKeyword) (join_keyword : string)
    (arg : PyArg) (element : QueryElement.t) : Prop :=
  QueryElement.create arg (Query.element_kwargs keyword join_keyword)
  = Return element.

(** Every keyword has its clause store, and a store holds no flag, or it
    is the store of [SELECT] and holds one of the two flags. *)
Definition flags_sound (self : Query.t) : Prop :=
  forall keyword,
    exists clause,
      Query._clauses self !! keyword = Some clause
      /\ (ClauseCollection.flag clause = None
          \/ keyword = SELECT
             /\ (ClauseCollection.flag clause = Some "DISTINCT"
                 \/ ClauseCollection.flag clause = Some "ALL")).

(** The second token of a clause name is a flag registered for the keyword
    its first token names. *)
Definition flag_registered (base_clause potential_flag : string) : Prop :=
  exists keyword flag flags,
    SQLKeyword_of_value base_clause = Some keyword
    /\ SQLFlag_of_value potential_flag = Some flag
    /\ Query.assoc Query.FLAGGABLE_KEYWORDS keyword = Some flags
    /\ flag ∈ flags.

(** The text begins, or ends, with a whitespace character. *)
Definition starts_with_space (s : string) : bool :=
  match s with
  | EmptyString => false
  | String c _ => PyStr.isspace_char c
  end.

Fixpoint ends_with_space (s : string) : bool :=
  match s with
  | EmptyString => false
  | String c EmptyString => PyStr.isspace_char c
  | String _ rest => ends_with_space rest
  end.

(** No character of the text ends a line for [str.splitlines]. *)
Fixpoint no_linebreak (s : string) : bool :=
  match s with
  | EmptyString => true
  | String c rest => negb (PyStr.is_linebreak c) && no_linebreak rest
  end.

(** The text has a lowercase character. *)
Fixpoint has_lower (s : string) : bool :=
  match s with
  | EmptyString => false
  | String c rest => PyStr.islower_char c || has_lower rest
  end.

(** A line as [textwrap.indent] leaves it: with the prefix, unless it is
    empty or whitespace only. *)
Definition indented_line (prefix line : string) : string :=
  if PyStr.all_space line then line else prefix +:+ line.

(** What the elements of the clause store of a keyword look like in a
    reachable builder. *)
Definition element_sound (keyword : SQLKeyword) (element : QueryElement.t)
    : Prop :=
  starts_with_space (QueryElement.value element) = false
  /\ ends_with_space (QueryElement.value element) = false
  /\ starts_with_space (QueryElement.alias element) = false
  /\ ends_with_space (QueryElement.alias element) = false
  /\ QueryElement.is_subquery element = bool_decide (keyword = WITH)
  /\ (QueryElement.join_keyword element <> "" ->
      keyword = FROM
      /\ PyStr.contains (QueryElement.join_keyword element) "JOIN" = true).

(** The element [add] stores for an accepted fragment: normalised text and
    alias, the join keyword of the call, and the subquery mark of [WITH]. *)
Definition element_of (keyword : SQLKeyword) (join_keyword : string)
    (arg : PyArg) : QueryElement.t :=
  match arg with
  | Plain text =>
      {| QueryElement.value := _normalize_sql text;
         QueryElement.alias := "";
         QueryElement.join_keyword := join_keyword;
         QueryElement.is_subquery := bool_decide (keyword = WITH) |}
  | PyTuple items | PyList items =>
      {| QueryElement.value := _normalize_sql (nth 1 items PyNone);
         QueryElement.alias := _normalize_sql (nth 0 items PyNone);
         QueryElement.join_keyword := join_keyword;
         QueryElement.is_subquery := bool_decide (keyword = WITH) |}
  end.

(** * Properties *)

(** ** Clause stores *)

Lemma set_flag_raise clause new clause' e :
  ClauseCollection.set_flag clause new = (clause', Raise e) ->
  clause' = clause
  /\ exists held, ClauseCollection.flag clause = Some held
                  /\ PyStr.truthy held = true /\ e = FlagConflict held new.
Proof.
  unfold ClauseCollection.set_flag.
  destruct (ClauseCollection.flag clause) as [held|] eqn:Hflag;
    [destruct (PyStr.truthy held) eqn:Htruthy|]; intros H; inversion H.
  split; [reflexivity|]. exists held. auto.
Qed.

Lemma set_flag_return clause new clause' :
  ClauseCollection.set_flag clause new = (clause', Return tt) ->
  clause' = {| ClauseCollection.elements := ClauseCollection.elements clause;
               ClauseCollection.flag := Some new |}
  /\ ClauseCollection.holds_flag clause = false.
Proof.
  unfold ClauseCollection.set_flag, ClauseCollection.holds_flag.
  destruct (ClauseCollection.flag clause) as [held|];
    [destruct (PyStr.truthy held)|]; intros H; inversion H; auto.
Qed.

Lemma set_flag_held clause new held :
  ClauseCollection.flag clause = Some held -> PyStr.truthy held = true ->
  ClauseCollection.set_flag clause new = (clause, Raise (FlagConflict held new)).
Proof.
  intros Hflag Htruthy. unfold ClauseCollection.set_flag.
  rewrite Hflag, Htruthy. reflexivity.
Qed.

(** ** Element construction *)

Lemma create_cases arg kw :
  QueryElement.create arg kw
  = if accepted_fragment arg
    then match arg with
         | Plain x => Return (QueryElement.make (_normalize_sql x) "" kw)
         | PyTuple items | PyList items =>
             Return (QueryElement.make
                       (_normalize_sql (nth 1 items PyNone))
                       (_normalize_sql (nth 0 items PyNone)) kw)
         end
    else Raise (InvalidArgument arg).
Proof.
  destruct arg as [[]|[|?[|?[|??]]]|[|?[|?[|??]]]]; reflexivity.
Qed.

Lemma create_raise arg kw e :
  QueryElement.create arg kw = Raise e ->
  e = InvalidArgument arg /\ accepted_fragment arg = false.
Proof.
  rewrite create_cases. destruct (accepted_fragment arg).
  - destruct arg; discriminate.
  - intros H; inversion H; auto.
Qed.

(** ** The loop of [add] *)

Lemma add_elements_raise clause keyword join_keyword args clause' e :
  Query.add_elements clause keyword join_keyword args = (clause', Raise e) ->
  exists before bad after added,
    args = before ++ bad :: after
    /\ e = InvalidArgument bad
    /\ accepted_fragment bad = false
    /\ Forall2 (created keyword join_keyword) before added
    /\ clause' = {| ClauseCollection.elements :=
                      ClauseCollection.elements clause ++ added;
                    ClauseCollection.flag := ClauseCollection.flag clause |}.
Proof.
  revert clause. induction args as [|arg rest IH]; intros clause; simpl.
  - discriminate.
  - destruct (QueryElement.create arg _) as [element|e'] eqn:Hcreate.
    + intros H.
      destruct (IH _ H)
        as (before & bad & after & added & -> & -> & Hbad & Hall & ->).
      exists (arg :: before), bad, after, (element :: added).
      split; [reflexivity|]. split; [reflexivity|]. split; [assumption|].
      split; [constructor; assumption|].
      unfold ClauseCollection.add_element. simpl.
      rewrite <- app_assoc. reflexivity.
    + intros H. inversion H; subst.
      apply create_raise in Hcreate as [-> Hbad].
      exists [], arg, rest, [].
      split; [reflexivity|]. split; [reflexivity|]. split; [assumption|].
      split; [constructor|].
      rewrite app_nil_r. destruct clause'; reflexivity.
Qed.

Lemma add_elements_return clause keyword join_keyword args clause' :
  Query.add_elements clause keyword join_keyword args = (clause', Return tt) ->
  exists added,
    Forall2 (created keyword join_keyword) args added
    /\ clause' = {| ClauseCollection.elements :=
                      ClauseCollection.elements clause ++ added;
                    ClauseCollection.flag := ClauseCollection.flag clause |}.
Proof.
  revert clause. induction args as [|arg rest IH]; intros clause; simpl.
  - intros H; inversion H; subst. exists []. split; [constructor|].
    rewrite app_nil_r. destruct clause'; reflexivity.
  - destruct (QueryElement.create arg _) as [element|e'] eqn:Hcreate;
      [|discriminate].
    intros H. destruct (IH _ H) as (added & Hall & ->).
    exists (element :: added). split; [constructor; assumption|].
    unfold ClauseCollection.add_element. simpl.
    rewrite <- app_assoc. reflexivity.
Qed.

Lemma add_elements_flag clause keyword join_keyword args :
  ClauseCollection.flag
    (Query.add_elements clause keyword join_keyword args).1
  = ClauseCollection.flag clause.
Proof.
  destruct (Query.add_elements clause keyword join_keyword args)
    as [clause' [[]|e]] eqn:H.
  - apply add_elements_return in H as (? & _ & ->). reflexivity.
  - apply add_elements_raise in H as (?&?&?&?&_&_&_&_&->). reflexivity.
Qed.

(** ** The dictionary of clause stores *)

Lemma store_same self keyword clause :
  Query._clauses self !! keyword = Some clause ->
  Query.store self keyword clause = self.
Proof.
  intros H. destruct self as [clauses]. unfold Query.store. simpl in *.
  f_equal. apply insert_id. assumption.
Qed.

Lemma store_lookup self keyword clause :
  Query._clauses (Query.store self keyword clause) !! keyword = Some clause.
Proof. unfold Query.store. simpl. apply lookup_insert_eq. Qed.

Lemma store_lookup_ne self keyword clause other :
  keyword <> other ->
  Query._clauses (Query.store self keyword clause) !! other
  = Query._clauses self !! other.
Proof. intros H. unfold Query.store. simpl. apply lookup_insert_ne, H. Qed.

(** ** Clause dispatch *)

(** What [add] does once the clause name is resolved and its clause store
    found. *)
Lemma add_resolved self clause_name args keyword flag join_keyword clause :
  Query.resolve clause_name = Return (keyword, flag, join_keyword) ->
  Query._clauses self !! keyword = Some clause ->
  Query.add self clause_name args
  = let flagged :=
      if PyStr.truthy flag then ClauseCollection.set_flag clause flag
      else (clause, Return tt) in
    match flagged.2 with
    | Raise e => (Query.store self keyword flagged.1, Raise e)
    | Return _ =>
        let added :=
          Query.add_elements flagged.1 keyword join_keyword args in
        (Query.store self keyword added.1, added.2)
    end.
Proof.
  intros Hresolve Hlookup. unfold Query.add. rewrite Hresolve, Hlookup.
  destruct (PyStr.truthy flag); simpl.
  - destruct (ClauseCollection.set_flag clause flag) as [clause' [[]|e]];
      simpl; [|reflexivity].
    destruct (Query.add_elements clause' keyword join_keyword args);
      reflexivity.
  - destruct (Query.add_elements clause keyword join_keyword args);
      reflexivity.
Qed.

(** The ways in which [add] comes to an end. *)
Lemma add_cases self clause_name args self' result :
  Query.add self clause_name args = (self', result) ->
  (exists e, Query.resolve clause_name = Raise e
             /\ self' = self /\ result = Raise e)
  \/ (exists keyword flag join_keyword,
        Query.resolve clause_name = Return (keyword, flag, join_keyword)
        /\ Query._clauses self !! keyword = None
        /\ self' = self /\ result = Raise (KeyError keyword))
  \/ (exists keyword flag join_keyword clause held,
        Query.resolve clause_name = Return (keyword, flag, join_keyword)
        /\ Query._clauses self !! keyword = Some clause
        /\ PyStr.truthy flag = true
        /\ ClauseCollection.flag clause = Some held
        /\ PyStr.truthy held = true
        /\ self' = self /\ result = Raise (FlagConflict held flag))
  \/ (exists keyword flag join_keyword clause clause',
        Query.resolve clause_name = Return (keyword, flag, join_keyword)
        /\ Query._clauses self !! keyword = Some clause
        /\ (if PyStr.truthy flag
            then ClauseCollection.holds_flag clause = false
            else True)
        /\ Query.add_elements
             {| ClauseCollection.elements := ClauseCollection.elements clause;
                ClauseCollection.flag :=
                  if PyStr.truthy flag then Some flag
                  else ClauseCollection.flag clause |}
             keyword join_keyword args = (clause', result)
        /\ self' = Query.store self keyword clause').
Proof.
  intros Hadd.
  destruct (Query.resolve clause_name) as [[[keyword flag] join_keyword]|e]
    eqn:Hresolve.
  2:{ unfold Query.add in Hadd. rewrite Hresolve in Hadd.
      inversion Hadd; subst. left. eauto. }
  destruct (Query._clauses self !! keyword) as [clause|] eqn:Hlookup.
  2:{ unfold Query.add in Hadd. rewrite Hresolve, Hlookup in Hadd.
      inversion Hadd; subst. right; left. exists keyword, flag, join_keyword.
      repeat split; auto. }
  rewrite (add_resolved _ _ _ _ _ _ _ Hresolve Hlookup) in Hadd.
  destruct (PyStr.truthy flag) eqn:Htruthy; simpl in Hadd.
  - destruct (ClauseCollection.set_flag clause flag) as [flagged [[]|e]]
      eqn:Hflag; simpl in Hadd.
    + apply set_flag_return in Hflag as [-> Hfree].
      destruct (Query.add_elements _ keyword join_keyword args)
        as [clause' result'] eqn:Hloop.
      inversion Hadd; subst. do 3 right.
      exists keyword, flag, join_keyword, clause, clause'.
      rewrite Htruthy. repeat split; auto.
    + apply set_flag_raise in Hflag as [-> (held & Hheld & Hht & ->)].
      rewrite (store_same _ _ _ Hlookup) in Hadd. inversion Hadd; subst.
      right; right; left.
      exists keyword, flag, join_keyword, clause, held.
      repeat split; auto.
  - destruct (Query.add_elements clause keyword join_keyword args)
      as [clause' result'] eqn:Hloop.
    inversion Hadd; subst. do 3 right.
    exists keyword, flag, join_keyword, clause, clause'.
    rewrite Htruthy. destruct clause. repeat split; auto.
Qed.

(** [_parse_flag] raises on a clause name without a token only. *)
Lemma parse_flag_raise clause_name e :
  Query._parse_flag clause_name = Raise e ->
  e = IndexError /\ PyStr.split clause_name = [].
Proof.
  unfold Query._parse_flag.
  destruct (PyStr.split clause_name) as [|base_clause [|potential_flag rest]].
  - intros H; inversion H; auto.
  - discriminate.
  - destruct (SQLKeyword_of_value base_clause) as [keyword|]; [|discriminate].
    destruct (Query.assoc Query.FLAGGABLE_KEYWORDS keyword) as [flags|];
      [|discriminate].
    destruct (SQLFlag_of_value potential_flag) as [flag|]; [|discriminate].
    destruct (bool_decide (flag ∈ flags)); discriminate.
Qed.

(** [resolve] raises [UnsupportedClause] or [IndexError], nothing else. *)
Lemma resolve_raise clause_name e :
  Query.resolve clause_name = Raise e ->
  e = IndexError \/ exists rejected, e = UnsupportedClause rejected.
Proof.
  unfold Query.resolve.
  destruct (Query._resolve_join_alias clause_name) as [actual join_keyword].
  destruct (Query._parse_flag actual) as [[actual' flag]|e'] eqn:Hparse.
  - destruct (SQLKeyword_of_value actual'); intros H; inversion H; eauto.
  - apply parse_flag_raise in Hparse as [-> _].
    intros H; inversion H; auto.
Qed.

(** *** Failing calls of [add] *)

(** C10: an [add] call that fails keyword resolution with
    [UnsupportedClause] leaves the builder unchanged; the error comes out
    of the resolution steps (join alias, flag parsing, keyword lookup),
    which are over before a flag is set or an element appended. *)
Theorem add_unsupported_clause_unchanged self clause_name args self' rejected :
  Query.add self clause_name args
  = (self', Raise (UnsupportedClause rejected)) ->
  self' = self
  /\ Query.resolve clause_name = Raise (UnsupportedClause rejected).
Proof.
  intros Hadd. apply add_cases in Hadd
    as [(e & Hresolve & -> & He)
       |[(keyword & flag & jk & _ & _ & _ & He)
        |[(keyword & flag & jk & clause & held & _ & _ & _ & _ & _ & _ & He)
         |(keyword & flag & jk & clause & clause' & _ & _ & _ & Hloop & _)]]].
  - inversion He; subst. auto.
  - discriminate.
  - discriminate.
  - apply add_elements_raise in Hloop as (?&?&?&?&_&He&_). discriminate.
Qed.

Lemma add_unsupported_clause_unchanged_witness :
  let self := (Query.add Query.init "SELECT DISTINCT" [Plain (PyStrV "name")]).1 in
  Query.add self "MERGE" [Plain (PyStrV "INTO target")]
  = (self, Raise (UnsupportedClause "MERGE"))
  /\ self = self
  /\ Query.resolve "MERGE" = Raise (UnsupportedClause "MERGE").
Proof.
  intros self.
  assert (Hadd : Query.add self "MERGE" [Plain (PyStrV "INTO target")]
                 = (self, Raise (UnsupportedClause "MERGE")))
    by (vm_compute; reflexivity).
  split; [exact Hadd|].
  exact (add_unsupported_clause_unchanged _ _ _ _ _ Hadd).
Defined.

(** C1, as amended: an [add] call that fails with [UnsupportedClause] or
    [FlagConflict] (or with any error but [InvalidArgument]) leaves the
    builder unchanged.  A call that fails with [InvalidArgument] has
    resolved its clause name and found the clause store; the offending
    fragment is the first one [QueryElement.create] rejects, and the call
    leaves in that store the flag parsed from the clause name (when there
    is one) and the elements of the fragments before the offending one;
    the other clause stores are as before. *)
Theorem add_failure_state self clause_name args self' e :
  Query.add self clause_name args = (self', Raise e) ->
  match e with
  | InvalidArgument bad =>
      exists keyword flag join_keyword clause before after added,
        Query.resolve clause_name = Return (keyword, flag, join_keyword)
        /\ Query._clauses self !! keyword = Some clause
        /\ args = before ++ bad :: after
        /\ accepted_fragment bad = false
        /\ Forall2 (created keyword join_keyword) before added
        /\ self' = Query.store self keyword
             {| ClauseCollection.elements :=
                  ClauseCollection.elements clause ++ added;
                ClauseCollection.flag :=
                  if PyStr.truthy flag then Some flag
                  else ClauseCollection.flag clause |}
  | _ => self' = self
  end.
Proof.
  intros Hadd. apply add_cases in Hadd
    as [(e' & Hresolve & -> & He)
       |[(keyword & flag & jk & _ & _ & -> & He)
        |[(keyword & flag & jk & clause & held & _ & _ & _ & _ & _ & -> & He)
         |(keyword & flag & jk & clause & clause' & Hresolve & Hlookup & _
           & Hloop & ->)]]].
  - inversion He; subst.
    apply resolve_raise in Hresolve as [->|[rejected ->]]; reflexivity.
  - inversion He; reflexivity.
  - inversion He; reflexivity.
  - apply add_elements_raise in Hloop
      as (before & bad & after & added & -> & -> & Hbad & Hall & ->).
    exists keyword, flag, jk, clause, before, after, added. simpl.
    repeat split; auto.
Qed.

Lemma add_failure_state_witness :
  let args := [Plain (PyStrV "a"); Plain (PyInt (mk_int 5 eq_refl)); Plain (PyStrV "b")] in
  let self' := (Query.add Query.init "SELECT DISTINCT" args).1 in
  Query.add Query.init "SELECT DISTINCT" args
  = (self', Raise (InvalidArgument (Plain (PyInt (mk_int 5 eq_refl)))))
  /\ exists keyword flag join_keyword clause before after added,
       Query.resolve "SELECT DISTINCT" = Return (keyword, flag, join_keyword)
       /\ Query._clauses Query.init !! keyword = Some clause
       /\ args = before ++ Plain (PyInt (mk_int 5 eq_refl)) :: after
       /\ accepted_fragment (Plain (PyInt (mk_int 5 eq_refl))) = false
       /\ Forall2 (created keyword join_keyword) before added
       /\ self' = Query.store Query.init keyword
            {| ClauseCollection.elements :=
                 ClauseCollection.elements clause ++ added;
               ClauseCollection.flag :=
                 if PyStr.truthy flag then Some flag
                 else ClauseCollection.flag clause |}.
Proof.
  intros args self'.
  assert (Hadd : Query.add Query.init "SELECT DISTINCT" args
                 = (self', Raise (InvalidArgument (Plain (PyInt (mk_int 5 eq_refl))))))
    by (vm_compute; reflexivity).
  split; [exact Hadd|].
  exact (add_failure_state _ _ _ _ _ Hadd).
Defined.

(** C1 as it is written fails: the call below raises [InvalidArgument] at
    its second fragment, after the flag was set and the first fragment
    appended, and both stay in the builder. *)
Lemma add_failure_state_counterexample :
  let call :=
    Query.add Query.init "SELECT DISTINCT"
      [Plain (PyStrV "a"); Plain (PyInt (mk_int 5 eq_refl))] in
  call.2 = Raise (InvalidArgument (Plain (PyInt (mk_int 5 eq_refl))))
  /\ Query._clauses Query.init !! SELECT = Some ClauseCollection.init
  /\ Query._clauses call.1 !! SELECT
     = Some {| ClauseCollection.elements :=
                 [{| QueryElement.value := "a"; QueryElement.alias := "";
                     QueryElement.join_keyword := "";
                     QueryElement.is_subquery := false |}];
               ClauseCollection.flag := Some "DISTINCT" |}
  /\ call.1 <> Query.init.
Proof.
  intros call.
  assert (Hafter : Query._clauses call.1 !! SELECT
     = Some {| ClauseCollection.elements :=
                 [{| QueryElement.value := "a"; QueryElement.alias := "";
                     QueryElement.join_keyword := "";
                     QueryElement.is_subquery := false |}];
               ClauseCollection.flag := Some "DISTINCT" |})
    by (vm_compute; reflexivity).
  assert (Hbefore : Query._clauses Query.init !! SELECT
                    = Some ClauseCollection.init)
    by (vm_compute; reflexivity).
  split; [vm_compute; reflexivity|]. split; [exact Hbefore|].
  split; [exact Hafter|].
  intros Heq. rewrite Heq, Hbefore in Hafter. discriminate.
Qed.

(** *** Flag parsing *)

Lemma SQLKeyword_of_value_Some s keyword :
  SQLKeyword_of_value s = Some keyword -> s = SQLKeyword_value keyword.
Proof.
  unfold SQLKeyword_of_value, SQLKeyword_members. cbn [List.find].
  repeat (match goal with
          | |- context [String.eqb ?v s] => destruct (String.eqb_spec v s)
          end; [intros [= <-]; subst; reflexivity|]).
  discriminate.
Qed.

Lemma SQLKeyword_of_value_value keyword :
  SQLKeyword_of_value (SQLKeyword_value keyword) = Some keyword.
Proof. destruct keyword; reflexivity. Qed.

Lemma SQLFlag_of_value_Some s flag :
  SQLFlag_of_value s = Some flag -> s = SQLFlag_value flag.
Proof.
  unfold SQLFlag_of_value, SQLFlag_members. cbn [List.find].
  repeat (match goal with
          | |- context [String.eqb ?v s] => destruct (String.eqb_spec v s)
          end; [intros [= <-]; subst; reflexivity|]).
  discriminate.
Qed.

(** A flag comes out of [_parse_flag] only for a clause name whose first
    two tokens are [SELECT] and one of its two flags; whatever tokens
    follow them are dropped. *)
Lemma parse_flag_flagged clause_name actual flag :
  Query._parse_flag clause_name = Return (actual, flag) ->
  PyStr.truthy flag = true ->
  actual = "SELECT" /\ (flag = "DISTINCT" \/ flag = "ALL")
  /\ exists rest, PyStr.split clause_name = actual :: flag :: rest.
Proof.
  unfold Query._parse_flag.
  destruct (PyStr.split clause_name) as [|base_clause [|potential_flag rest]].
  - discriminate.
  - intros [= <- <-]. discriminate.
  - destruct (SQLKeyword_of_value base_clause) as [keyword|] eqn:Hkeyword;
      [|intros [= <- <-]; discriminate].
    apply SQLKeyword_of_value_Some in Hkeyword as ->.
    destruct keyword; simpl; try (intros [= <- <-]; discriminate).
    destruct (SQLFlag_of_value potential_flag) as [parsed|] eqn:Hflag;
      [|intros [= <- <-]; discriminate].
    apply SQLFlag_of_value_Some in Hflag as ->.
    destruct parsed; simpl; intros [= <- <-] _; eauto.
Qed.

Lemma resolve_flagged clause_name keyword flag join_keyword :
  Query.resolve clause_name = Return (keyword, flag, join_keyword) ->
  PyStr.truthy flag = true ->
  keyword = SELECT /\ (flag = "DISTINCT" \/ flag = "ALL").
Proof.
  unfold Query.resolve.
  destruct (Query._resolve_join_alias clause_name) as [actual jk].
  destruct (Query._parse_flag actual) as [[actual' flag']|] eqn:Hparse;
    [|discriminate].
  destruct (SQLKeyword_of_value actual') as [keyword'|] eqn:Hkeyword;
    [|discriminate].
  intros [= -> -> ->] Htruthy.
  destruct (parse_flag_flagged _ _ _ Hparse Htruthy) as (-> & Hflag & _).
  vm_compute in Hkeyword. inversion Hkeyword. auto.
Qed.

(** C2, as amended: for a clause name (after join resolution) of exactly
    two tokens, the flag is recognised, and the name reduced to its first
    token, exactly when the first token is a supported keyword and the
    second a flag registered for it; otherwise the name is left untouched.
    A clause name of one token is left untouched.  A name left untouched
    goes to keyword resolution as it is: it resolves when it is itself the
    value of a keyword and is rejected with [UnsupportedClause] otherwise.
    A recognised flag is what the resolution hands to the flag step. *)
Theorem parse_flag_tokens clause_name actual join_keyword :
  Query._resolve_join_alias clause_name = (actual, join_keyword) ->
  (forall base_clause potential_flag,
     PyStr.split actual = [base_clause; potential_flag] ->
     (flag_registered base_clause potential_flag ->
      Query._parse_flag actual = Return (base_clause, potential_flag)
      /\ exists keyword,
           SQLKeyword_of_value base_clause = Some keyword
           /\ Query.resolve clause_name
              = Return (keyword, potential_flag, join_keyword))
     /\ (~ flag_registered base_clause potential_flag ->
         Query._parse_flag actual = Return (actual, "")))
  /\ (forall token,
        PyStr.split actual = [token] ->
        Query._parse_flag actual = Return (actual, ""))
  /\ (Query._parse_flag actual = Return (actual, "") ->
      Query.resolve clause_name
      = match SQLKeyword_of_value actual with
        | Some keyword => Return (keyword, "", join_keyword)
        | None => Raise (UnsupportedClause actual)
        end).
Proof.
  intros Hjoin. split; [|split].
  - intros base_clause potential_flag Hsplit.
    assert (Hparse : flag_registered base_clause potential_flag ->
              Query._parse_flag actual = Return (base_clause, potential_flag)).
    { intros (keyword & flag & flags & Hkeyword & Hflag & Hflags & Hin).
      unfold Query._parse_flag.
      rewrite Hsplit, Hkeyword, Hflags, Hflag.
      rewrite bool_decide_eq_true_2 by exact Hin. reflexivity. }
    split.
    + intros Hreg. split; [exact (Hparse Hreg)|].
      destruct Hreg as (keyword & flag & flags & Hkeyword & Hreg).
      exists keyword. split; [exact Hkeyword|].
      unfold Query.resolve. rewrite Hjoin, Hparse, Hkeyword; [reflexivity|].
      exists keyword, flag, flags. split; [exact Hkeyword|exact Hreg].
    + intros Hnot. unfold Query._parse_flag. rewrite Hsplit.
      destruct (SQLKeyword_of_value base_clause) as [keyword|] eqn:Hkeyword;
        [|reflexivity].
      destruct (Query.assoc Query.FLAGGABLE_KEYWORDS keyword) as [flags|]
        eqn:Hflags; [|reflexivity].
      destruct (SQLFlag_of_value potential_flag) as [flag|] eqn:Hflag;
        [|reflexivity].
      case_bool_decide as Hin; [|reflexivity].
      destruct Hnot. exists keyword, flag, flags. auto.
  - intros token Hsplit. unfold Query._parse_flag. rewrite Hsplit.
    reflexivity.
  - intros Hparse. unfold Query.resolve. rewrite Hjoin, Hparse. reflexivity.
Qed.

Lemma parse_flag_tokens_witness :
  Query._resolve_join_alias "SELECT DISTINCT" = ("SELECT DISTINCT", "")
  /\ PyStr.split "SELECT DISTINCT" = ["SELECT"; "DISTINCT"]
  /\ flag_registered "SELECT" "DISTINCT"
  /\ Query._parse_flag "SELECT DISTINCT" = Return ("SELECT", "DISTINCT")
  /\ exists keyword,
       SQLKeyword_of_value "SELECT" = Some keyword
       /\ Query.resolve "SELECT DISTINCT" = Return (keyword, "DISTINCT", "").
Proof.
  assert (Hjoin : Query._resolve_join_alias "SELECT DISTINCT"
                  = ("SELECT DISTINCT", "")) by (vm_compute; reflexivity).
  assert (Hsplit : PyStr.split "SELECT DISTINCT" = ["SELECT"; "DISTINCT"])
    by (vm_compute; reflexivity).
  assert (Hreg : flag_registered "SELECT" "DISTINCT").
  { exists SELECT, DISTINCT, [DISTINCT; ALL].
    split; [vm_compute; reflexivity|]. split; [vm_compute; reflexivity|].
    split; [vm_compute; reflexivity|]. apply list_elem_of_here. }
  split; [exact Hjoin|]. split; [exact Hsplit|]. split; [exact Hreg|].
  exact (proj1 (proj1 (parse_flag_tokens "SELECT DISTINCT" _ _ Hjoin)
                  "SELECT" "DISTINCT" Hsplit) Hreg).
Defined.

(** C2 as it is written fails.  A clause name of one token is left
    untouched but not rejected when it is a keyword.  And [_parse_flag]
    tests for one token only and then reads the first two, so the three
    tokens of ["SELECT DISTINCT extra"] are parsed as [SELECT] with the
    flag [DISTINCT] and the call succeeds, the third token lost; a clause
    name without a token raises [IndexError], not [UnsupportedClause]. *)
Lemma parse_flag_tokens_counterexample :
  (PyStr.split "SELECT" = ["SELECT"]
   /\ Query._parse_flag "SELECT" = Return ("SELECT", "")
   /\ (Query.add Query.init "SELECT" [Plain (PyStrV "x")]).2 = Return tt)
  /\ (PyStr.split "SELECT DISTINCT extra" = ["SELECT"; "DISTINCT"; "extra"]
      /\ Query._parse_flag "SELECT DISTINCT extra"
         = Return ("SELECT", "DISTINCT")
      /\ let call :=
           Query.add Query.init "SELECT DISTINCT extra" [Plain (PyStrV "x")] in
         call.2 = Return tt
         /\ Query._clauses call.1 !! SELECT
            = Some {| ClauseCollection.elements :=
                        [{| QueryElement.value := "x";
                            QueryElement.alias := "";
                            QueryElement.join_keyword := "";
                            QueryElement.is_subquery := false |}];
                      ClauseCollection.flag := Some "DISTINCT" |})
  /\ (PyStr.split "" = []
      /\ Query.add Query.init "" [Plain (PyStrV "x")]
         = (Query.init, Raise IndexError)).
Proof. repeat split; vm_compute; reflexivity. Qed.

(** ** Rendering *)

(** C8: [Query().SELECT("*").FROM("users")] builds the keyword lines
    unindented, each clause body on a line of its own behind four spaces,
    the lines joined by single line feeds. *)
Theorem build_select_from :
  exists self,
    chain (chain (Return Query.init) "SELECT" [Plain (PyStrV "*")])
          "FROM" [Plain (PyStrV "users")] = Return self
    /\ Query.build self
       = Return ("SELECT" +:+ LF +:+ "    *" +:+ LF
                 +:+ "FROM" +:+ LF +:+ "    users").
Proof.
  eexists. split; [vm_compute; reflexivity|]. vm_compute. reflexivity.
Qed.

(** [build] reads a builder through the parts of its clauses only. *)
Lemma build_parts_ext self other keywords sql_parts :
  (forall keyword, keyword ∈ keywords ->
     Query.clause_parts keyword <$> Query._clauses self !! keyword
     = Query.clause_parts keyword <$> Query._clauses other !! keyword) ->
  Query.build_parts self keywords sql_parts
  = Query.build_parts other keywords sql_parts.
Proof.
  revert sql_parts. induction keywords as [|keyword rest IH];
    intros sql_parts Hsame; simpl; [reflexivity|].
  assert (Hhead := Hsame keyword (list_elem_of_here _ _)).
  destruct (Query._clauses self !! keyword) as [clause|],
           (Query._clauses other !! keyword) as [clause'|];
    simpl in Hhead; try discriminate; [|reflexivity].
  injection Hhead as ->. apply IH.
  intros k Hk. apply Hsame. apply list_elem_of_further, Hk.
Qed.

Lemma clause_parts_no_elements keyword clause :
  ClauseCollection.elements clause = [] ->
  Query.clause_parts keyword clause = [].
Proof.
  intros Hnone. unfold Query.clause_parts, ClauseCollection.is_empty.
  rewrite Hnone. reflexivity.
Qed.

(** C9: a clause store with a flag and no element gives [build] nothing,
    emptiness being judged on the elements alone: the builder builds what
    it would build with that store fresh.  [Query().add("SELECT DISTINCT")]
    records the flag and builds the empty string. *)
Theorem flagged_empty_clause_omitted :
  (forall self keyword clause,
     Query._clauses self !! keyword = Some clause ->
     ClauseCollection.elements clause = [] ->
     Query.clause_parts keyword clause = []
     /\ Query.build self
        = Query.build (Query.store self keyword ClauseCollection.init))
  /\ (let call := Query.add Query.init "SELECT DISTINCT" [] in
      call.2 = Return tt
      /\ Query._clauses call.1 !! SELECT
         = Some {| ClauseCollection.elements := [];
                   ClauseCollection.flag := Some "DISTINCT" |}
      /\ Query.build call.1 = Return "").
Proof.
  split.
  - intros self keyword clause Hlookup Hnone.
    split; [apply clause_parts_no_elements, Hnone|].
    unfold Query.build.
    rewrite (build_parts_ext self
               (Query.store self keyword ClauseCollection.init));
      [reflexivity|].
    intros k _.
    destruct (decide (keyword = k)) as [<-|Hne].
    + rewrite store_lookup, Hlookup. simpl.
      rewrite (clause_parts_no_elements _ _ Hnone). reflexivity.
    + rewrite (store_lookup_ne _ _ _ _ Hne). reflexivity.
  - repeat split; vm_compute; reflexivity.
Qed.

Lemma flagged_empty_clause_omitted_witness :
  let self := (Query.add Query.init "SELECT DISTINCT" []).1 in
  let clause := {| ClauseCollection.elements := [];
                   ClauseCollection.flag := Some "DISTINCT" |} in
  Query._clauses self !! SELECT = Some clause
  /\ ClauseCollection.elements clause = []
  /\ Query.clause_parts SELECT clause = []
  /\ Query.build self
     = Query.build (Query.store self SELECT ClauseCollection.init).
Proof.
  intros self clause.
  assert (Hlookup : Query._clauses self !! SELECT = Some clause)
    by (vm_compute; reflexivity).
  split; [exact Hlookup|]. split; [reflexivity|].
  exact (proj1 flagged_empty_clause_omitted self SELECT clause
           Hlookup eq_refl).
Defined.

(** ** Element construction and formatting *)

(** C5, as amended: a fragment that is neither a [str] nor a tuple or list
    of two items (a sequence of another length, a plain value that is no
    [str], [None] included) is refused with [InvalidArgument] naming it.
    The two items of a pair are not checked: each goes through [str()] and
    is normalised, whatever it is. *)
Theorem create_invalid_argument arg kw :
  (forall s, arg <> Plain (PyStrV s)) ->
  (forall items, arg = PyTuple items \/ arg = PyList items ->
                 length items <> 2) ->
  QueryElement.create arg kw = Raise (InvalidArgument arg)
  /\ forall alias value,
       QueryElement.create (PyTuple [alias; value]) kw
       = Return (QueryElement.make (_normalize_sql value)
                   (_normalize_sql alias) kw)
       /\ QueryElement.create (PyList [alias; value]) kw
          = Return (QueryElement.make (_normalize_sql value)
                      (_normalize_sql alias) kw).
Proof.
  intros Hstr Hpair. split; [|intros; split; reflexivity].
  destruct arg as [[s| | |]|items|items]; try reflexivity.
  - destruct (Hstr s eq_refl).
  - destruct items as [|? [|? [|? ?]]]; try reflexivity.
    destruct (Hpair _ (or_introl eq_refl) eq_refl).
  - destruct items as [|? [|? [|? ?]]]; try reflexivity.
    destruct (Hpair _ (or_intror eq_refl) eq_refl).
Qed.

Lemma create_invalid_argument_witness :
  let arg := PyTuple [PyStrV "a"; PyStrV "b"; PyStrV "c"] in
  let kw := Query.element_kwargs SELECT "" in
  QueryElement.create arg kw = Raise (InvalidArgument arg)
  /\ forall alias value,
       QueryElement.create (PyTuple [alias; value]) kw
       = Return (QueryElement.make (_normalize_sql value)
                   (_normalize_sql alias) kw)
       /\ QueryElement.create (PyList [alias; value]) kw
          = Return (QueryElement.make (_normalize_sql value)
                      (_normalize_sql alias) kw).
Proof.
  intros arg kw. apply (create_invalid_argument arg kw).
  - intros s H. discriminate H.
  - intros items [H|H]; [|discriminate H].
    injection H as <-. simpl. lia.
Defined.

(** C5 as it is written fails: a pair whose second item is [None] is not
    refused; the element gets the text ["None"]. *)
Lemma create_invalid_argument_counterexample :
  let arg := PyTuple [PyStrV "a"; PyNone] in
  let kw := Query.element_kwargs SELECT "" in
  QueryElement.create arg kw
  = Return {| QueryElement.value := "None"; QueryElement.alias := "a";
              QueryElement.join_keyword := "";
              QueryElement.is_subquery := false |}
  /\ QueryElement.create arg kw <> Raise (InvalidArgument arg).
Proof.
  intros arg kw.
  assert (H : QueryElement.create arg kw
              = Return {| QueryElement.value := "None";
                          QueryElement.alias := "a";
                          QueryElement.join_keyword := "";
                          QueryElement.is_subquery := false |})
    by (vm_compute; reflexivity).
  split; [exact H|]. rewrite H. discriminate.
Qed.

(** C4, as amended: the direction of an alias depends on the keyword.  An
    element made by [add] from a pair whose alias is not empty is rendered
    alias first for [WITH], whose elements are subqueries and so have their
    text in parentheses on lines of their own, and text first for every
    other keyword.  [WITH(("cte","SELECT 1"))] renders its element as
    [cte AS (], the indented text, [)]; [SELECT(("alias","col"))] renders
    [col AS alias]. *)
Theorem alias_direction keyword join_keyword pair alias value element :
  pair = PyTuple [alias; value] \/ pair = PyList [alias; value] ->
  created keyword join_keyword pair element ->
  PyStr.truthy (_normalize_sql alias) = true ->
  Query._format_element keyword element
  = (if bool_decide (keyword = WITH)
     then _normalize_sql alias +:+ " AS "
          +:+ "(" +:+ LF +:+ _indent_text (_normalize_sql value) 4
          +:+ LF +:+ ")"
     else _normalize_sql value +:+ " AS " +:+ _normalize_sql alias)
  /\ (exists self,
        chain (Return Query.init) "WITH"
              [PyTuple [PyStrV "cte"; PyStrV "SELECT 1"]] = Return self
        /\ Query.build self
           = Return ("WITH" +:+ LF +:+ "    cte AS (" +:+ LF
                     +:+ "        SELECT 1" +:+ LF +:+ "    )"))
  /\ (exists self,
        chain (Return Query.init) "SELECT"
              [PyTuple [PyStrV "alias"; PyStrV "col"]] = Return self
        /\ Query.build self
           = Return ("SELECT" +:+ LF +:+ "    col AS alias")).
Proof.
  intros Hpair Hcreated Halias. split.
  - unfold created in Hcreated.
    destruct Hpair as [-> | ->]; simpl in Hcreated;
      injection Hcreated as <-;
      unfold Query._format_element, QueryElement.make; simpl;
      rewrite Halias; destruct keyword; reflexivity.
  - split; eexists; (split; [vm_compute; reflexivity|]);
      vm_compute; reflexivity.
Qed.

Lemma alias_direction_witness :
  let element :=
    {| QueryElement.value := "SELECT 1"; QueryElement.alias := "cte";
       QueryElement.join_keyword := ""; QueryElement.is_subquery := true |} in
  created WITH "" (PyTuple [PyStrV "cte"; PyStrV "SELECT 1"]) element
  /\ PyStr.truthy (_normalize_sql (PyStrV "cte")) = true
  /\ Query._format_element WITH element
     = "cte AS (" +:+ LF +:+ "    SELECT 1" +:+ LF +:+ ")".
Proof.
  intros element.
  assert (Hcreated : created WITH ""
                       (PyTuple [PyStrV "cte"; PyStrV "SELECT 1"]) element)
    by (vm_compute; reflexivity).
  assert (Halias : PyStr.truthy (_normalize_sql (PyStrV "cte")) = true)
    by (vm_compute; reflexivity).
  split; [exact Hcreated|]. split; [exact Halias|].
  rewrite (proj1 (alias_direction WITH "" _ (PyStrV "cte") (PyStrV "SELECT 1")
                    element (or_introl eq_refl) Hcreated Halias)).
  vm_compute. reflexivity.
Defined.

(** C4 as it is written fails: the element [WITH(("cte","SELECT 1"))]
    stores is a subquery, and it is not rendered as [cte AS SELECT 1]. *)
Lemma alias_direction_counterexample :
  let element :=
    {| QueryElement.value := "SELECT 1"; QueryElement.alias := "cte";
       QueryElement.join_keyword := ""; QueryElement.is_subquery := true |} in
  Query._clauses
    (Query.call Query.init "WITH"
       [PyTuple [PyStrV "cte"; PyStrV "SELECT 1"]]).1 !! WITH
  = Some {| ClauseCollection.elements := [element];
            ClauseCollection.flag := None |}
  /\ Query._format_element WITH element
     = "cte AS (" +:+ LF +:+ "    SELECT 1" +:+ LF +:+ ")"
  /\ Query._format_element WITH element <> "cte AS SELECT 1".
Proof.
  intros element.
  split; [vm_compute; reflexivity|].
  split; [vm_compute; reflexivity|].
  vm_compute. discriminate.
Qed.

(** ** Flags of reachable builders *)

Lemma init_flags_sound : flags_sound Query.init.
Proof.
  intros keyword. exists ClauseCollection.init.
  split; [destruct keyword; vm_compute; reflexivity|]. left. reflexivity.
Qed.

Lemma add_flags_sound self clause_name args :
  flags_sound self -> flags_sound (Query.add self clause_name args).1.
Proof.
  intros Hsound.
  destruct (Query.add self clause_name args) as [self' result] eqn:Hadd.
  simpl. apply add_cases in Hadd
    as [(e & _ & -> & _)
       |[(keyword & flag & jk & _ & _ & -> & _)
        |[(keyword & flag & jk & clause & held & _ & _ & _ & _ & _ & -> & _)
         |(keyword & flag & jk & clause & clause' & Hresolve & Hlookup & _
           & Hloop & ->)]]]; try assumption.
  intros k. destruct (decide (keyword = k)) as [<-|Hne].
  - exists clause'. split; [apply store_lookup|].
    assert (Hflag := add_elements_flag
                       {| ClauseCollection.elements :=
                            ClauseCollection.elements clause;
                          ClauseCollection.flag :=
                            if PyStr.truthy flag then Some flag
                            else ClauseCollection.flag clause |}
                       keyword jk args).
    rewrite Hloop in Hflag. simpl in Hflag. rewrite Hflag.
    destruct (PyStr.truthy flag) eqn:Htruthy.
    + destruct (resolve_flagged _ _ _ _ Hresolve Htruthy) as [-> [->| ->]];
        auto.
    + destruct (Hsound keyword) as (clause0 & Hlookup0 & Hflag0).
      rewrite Hlookup in Hlookup0. injection Hlookup0 as <-. exact Hflag0.
  - destruct (Hsound k) as (clause0 & Hlookup0 & Hflag0).
    exists clause0. split; [|exact Hflag0].
    rewrite (store_lookup_ne _ _ _ _ Hne). exact Hlookup0.
Qed.

Lemma reachable_flags_sound self : reachable self -> flags_sound self.
Proof.
  induction 1 as [|self clause_name args _ IH].
  - apply init_flags_sound.
  - apply add_flags_sound, IH.
Qed.

(** A flag held by a store of a reachable builder counts as a flag in the
    test [if self.flag]. *)
Lemma reachable_flag_truthy self keyword clause held :
  reachable self ->
  Query._clauses self !! keyword = Some clause ->
  ClauseCollection.flag clause = Some held ->
  PyStr.truthy held = true.
Proof.
  intros Hreach Hlookup Hheld.
  destruct (reachable_flags_sound _ Hreach keyword)
    as (clause0 & Hlookup0 & Hflag0).
  rewrite Hlookup in Hlookup0. injection Hlookup0 as <-.
  rewrite Hheld in Hflag0.
  destruct Hflag0 as [|[_ [[= ->]|[= ->]]]]; [discriminate| |]; reflexivity.
Qed.

(** C6: setting a flag on a clause store that holds one raises
    [FlagConflict], whether the new flag is the held one or another, and
    the held flag stays: so for [set_flag] on a store, so for every [add]
    with a flag on a reachable builder whose store holds a flag, and no
    call of [add] changes a flag that is held.  After
    [add("SELECT DISTINCT", "x")], both [add("SELECT ALL", "y")] and
    [add("SELECT DISTINCT", "y")] raise and leave the builder as it was. *)
Theorem flag_conflict :
  (forall clause new,
     ClauseCollection.holds_flag clause = true ->
     exists held,
       ClauseCollection.flag clause = Some held
       /\ ClauseCollection.set_flag clause new
          = (clause, Raise (FlagConflict held new)))
  /\ (forall self clause_name args keyword flag join_keyword clause held,
        reachable self ->
        Query.resolve clause_name = Return (keyword, flag, join_keyword) ->
        PyStr.truthy flag = true ->
        Query._clauses self !! keyword = Some clause ->
        ClauseCollection.flag clause = Some held ->
        Query.add self clause_name args
        = (self, Raise (FlagConflict held flag)))
  /\ (forall self clause_name args keyword clause held,
        reachable self ->
        Query._clauses self !! keyword = Some clause ->
        ClauseCollection.flag clause = Some held ->
        exists clause',
          Query._clauses (Query.add self clause_name args).1 !! keyword
          = Some clause'
          /\ ClauseCollection.flag clause' = Some held)
  /\ (let first := Query.add Query.init "SELECT DISTINCT" [Plain (PyStrV "x")] in
      first.2 = Return tt
      /\ Query.add first.1 "SELECT ALL" [Plain (PyStrV "y")]
         = (first.1, Raise (FlagConflict "DISTINCT" "ALL"))
      /\ Query.add first.1 "SELECT DISTINCT" [Plain (PyStrV "y")]
         = (first.1, Raise (FlagConflict "DISTINCT" "DISTINCT"))).
Proof.
  split; [|split; [|split]].
  - intros clause new Hholds. unfold ClauseCollection.holds_flag in Hholds.
    destruct (ClauseCollection.flag clause) as [held|] eqn:Hheld;
      [|discriminate].
    exists held. split; [reflexivity|]. apply set_flag_held; assumption.
  - intros self clause_name args keyword flag jk clause held
      Hreach Hresolve Htruthy Hlookup Hheld.
    rewrite (add_resolved _ _ _ _ _ _ _ Hresolve Hlookup), Htruthy.
    rewrite (set_flag_held _ _ _ Hheld
               (reachable_flag_truthy _ _ _ _ Hreach Hlookup Hheld)).
    simpl. rewrite (store_same _ _ _ Hlookup). reflexivity.
  - intros self clause_name args keyword clause held Hreach Hlookup Hheld.
    assert (Hht := reachable_flag_truthy _ _ _ _ Hreach Hlookup Hheld).
    destruct (Query.add self clause_name args) as [self' result] eqn:Hadd.
    simpl. apply add_cases in Hadd
      as [(e & _ & -> & _)
         |[(k & flag & jk & _ & _ & -> & _)
          |[(k & flag & jk & c & h & _ & _ & _ & _ & _ & -> & _)
           |(k & flag & jk & c & c' & Hresolve & Hlookup' & Hfree
             & Hloop & ->)]]]; eauto.
    destruct (decide (k = keyword)) as [->|Hne].
    + exists c'. split; [apply store_lookup|].
      rewrite Hlookup in Hlookup'. injection Hlookup' as <-.
      assert (Hflag := add_elements_flag
                         {| ClauseCollection.elements :=
                              ClauseCollection.elements clause;
                            ClauseCollection.flag :=
                              if PyStr.truthy flag then Some flag
                              else ClauseCollection.flag clause |}
                         keyword jk args).
      rewrite Hloop in Hflag. simpl in Hflag. rewrite Hflag.
      destruct (PyStr.truthy flag); [|exact Hheld].
      unfold ClauseCollection.holds_flag in Hfree.
      rewrite Hheld, Hht in Hfree. discriminate.
    + exists clause. split; [|exact Hheld].
      rewrite (store_lookup_ne _ _ _ _ Hne). exact Hlookup.
  - repeat split; vm_compute; reflexivity.
Qed.

Lemma flag_conflict_witness :
  let self := (Query.add Query.init "SELECT DISTINCT" [Plain (PyStrV "x")]).1 in
  let clause :=
    {| ClauseCollection.elements :=
         [{| QueryElement.value := "x"; QueryElement.alias := "";
             QueryElement.join_keyword := "";
             QueryElement.is_subquery := false |}];
       ClauseCollection.flag := Some "DISTINCT" |} in
  reachable self
  /\ Query.resolve "SELECT ALL" = Return (SELECT, "ALL", "")
  /\ PyStr.truthy "ALL" = true
  /\ Query._clauses self !! SELECT = Some clause
  /\ ClauseCollection.flag clause = Some "DISTINCT"
  /\ Query.add self "SELECT ALL" [Plain (PyStrV "y")]
     = (self, Raise (FlagConflict "DISTINCT" "ALL")).
Proof.
  intros self clause.
  assert (Hreach : reachable self) by (apply reachable_add, reachable_init).
  assert (Hresolve : Query.resolve "SELECT ALL" = Return (SELECT, "ALL", ""))
    by (vm_compute; reflexivity).
  assert (Hlookup : Query._clauses self !! SELECT = Some clause)
    by (vm_compute; reflexivity).
  split; [exact Hreach|]. split; [exact Hresolve|]. split; [reflexivity|].
  split; [exact Hlookup|]. split; [reflexivity|].
  exact (proj1 (proj2 flag_conflict) self "SELECT ALL" [Plain (PyStrV "y")]
           SELECT "ALL" "" clause "DISTINCT"
           Hreach Hresolve eq_refl Hlookup eq_refl).
Defined.

(** ** Calls on different keywords *)

Lemma query_eq (self other : Query.t) :
  Query._clauses self = Query._clauses other -> self = other.
Proof. destruct self, other. simpl. intros ->. reflexivity. Qed.

(** A call of [add] leaves the clause stores of the other keywords alone. *)
Lemma add_lookup_ne self clause_name args keyword flag join_keyword other :
  Query.resolve clause_name = Return (keyword, flag, join_keyword) ->
  keyword <> other ->
  Query._clauses (Query.add self clause_name args).1 !! other
  = Query._clauses self !! other.
Proof.
  intros Hresolve Hne.
  destruct (Query.add self clause_name args) as [self' result] eqn:Hadd.
  simpl. apply add_cases in Hadd
    as [(e & _ & -> & _)
       |[(k & f & jk & _ & _ & -> & _)
        |[(k & f & jk & c & h & _ & _ & _ & _ & _ & -> & _)
         |(k & f & jk & c & c' & Hresolve' & _ & _ & _ & ->)]]];
    try reflexivity.
  rewrite Hresolve in Hresolve'. injection Hresolve' as <- <- <-.
  apply store_lookup_ne, Hne.
Qed.

(** What a call of [add] raises or returns, and what it leaves in the
    clause store of its keyword, depend on that clause store alone. *)
Lemma add_local self other clause_name args keyword flag join_keyword :
  Query.resolve clause_name = Return (keyword, flag, join_keyword) ->
  Query._clauses self !! keyword = Query._clauses other !! keyword ->
  (Query.add self clause_name args).2 = (Query.add other clause_name args).2
  /\ Query._clauses (Query.add self clause_name args).1 !! keyword
     = Query._clauses (Query.add other clause_name args).1 !! keyword.
Proof.
  intros Hresolve Hsame.
  destruct (Query._clauses self !! keyword) as [clause|] eqn:Hlookup.
  - rewrite (add_resolved self _ _ _ _ _ _ Hresolve Hlookup).
    rewrite (add_resolved other _ _ _ _ _ _ Hresolve (eq_sym Hsame)).
    simpl.
    destruct (if PyStr.truthy flag
              then ClauseCollection.set_flag clause flag
              else (clause, Return tt)) as [flagged [[]|e]];
      cbn [fst snd]; cbv zeta; cbn [fst snd]; rewrite !store_lookup; auto.
  - unfold Query.add. rewrite Hresolve, Hlookup, <- Hsame. simpl.
    rewrite Hlookup, <- Hsame. auto.
Qed.

(** Two calls of [add] on different keywords can be made in either order:
    the builder they leave and what each raises or returns are the same. *)
Lemma add_commute self name1 args1 name2 args2 k1 f1 j1 k2 f2 j2 :
  Query.resolve name1 = Return (k1, f1, j1) ->
  Query.resolve name2 = Return (k2, f2, j2) ->
  k1 <> k2 ->
  (Query.add (Query.add self name1 args1).1 name2 args2).1
  = (Query.add (Query.add self name2 args2).1 name1 args1).1
  /\ (Query.add (Query.add self name1 args1).1 name2 args2).2
     = (Query.add self name2 args2).2
  /\ (Query.add (Query.add self name2 args2).1 name1 args1).2
     = (Query.add self name1 args1).2.
Proof.
  intros Hone Htwo Hne.
  assert (Hne' : k2 <> k1) by congruence.
  pose proof (add_lookup_ne self name1 args1 _ _ _ k2 Hone Hne) as Hkeep2.
  pose proof (add_lookup_ne self name2 args2 _ _ _ k1 Htwo Hne') as Hkeep1.
  destruct (add_local _ self name2 args2 _ _ _ Htwo Hkeep2) as [Hres2 Hat2].
  destruct (add_local _ self name1 args1 _ _ _ Hone Hkeep1) as [Hres1 Hat1].
  split; [|split; assumption].
  apply query_eq, map_eq. intros k.
  destruct (decide (k1 = k)) as [<-|Hk1].
  - rewrite (add_lookup_ne _ name2 args2 _ _ _ k1 Htwo Hne'). auto.
  - destruct (decide (k2 = k)) as [<-|Hk2].
    + rewrite (add_lookup_ne _ name1 args1 _ _ _ k2 Hone Hne). auto.
    + rewrite (add_lookup_ne _ name2 args2 _ _ _ k Htwo Hk2).
      rewrite (add_lookup_ne _ name1 args1 _ _ _ k Hone Hk1).
      rewrite (add_lookup_ne _ name1 args1 _ _ _ k Hone Hk1).
      rewrite (add_lookup_ne _ name2 args2 _ _ _ k Htwo Hk2).
      reflexivity.
Qed.

(** [build] walks the keywords in the order of the enumeration. *)
Lemma build_parts_enumeration self keywords sql_parts :
  (forall keyword, is_Some (Query._clauses self !! keyword)) ->
  Query.build_parts self keywords sql_parts
  = Return (sql_parts
            ++ concat (map (fun keyword =>
                              from_option (Query.clause_parts keyword) []
                                (Query._clauses self !! keyword))
                           keywords)).
Proof.
  intros Hall. revert sql_parts.
  induction keywords as [|keyword rest IH]; intros sql_parts; simpl.
  - rewrite app_nil_r. reflexivity.
  - destruct (Hall keyword) as [clause ->]. simpl.
    rewrite IH, app_assoc. reflexivity.
Qed.

(** C7: the order of the output is the order of the keyword enumeration,
    not the order of the calls.  [build] on a reachable builder returns the
    parts of the clause stores of [WITH], [SELECT], [FROM], [WHERE],
    [GROUP BY], [HAVING], [ORDER BY], [LIMIT], in that order; and two [add]
    calls that resolve to two different keywords, made on the empty builder
    in either order, leave the same builder, with the same result for each
    call and the same, successful, [build]. *)
Theorem build_order_invariance :
  (forall self,
     reachable self ->
     Query.build self
     = Return (PyStr.join LF
                 (concat (map (fun keyword =>
                                 from_option (Query.clause_parts keyword) []
                                   (Query._clauses self !! keyword))
                              [WITH; SELECT; FROM; WHERE; GROUP_BY; HAVING;
                               ORDER_BY; LIMIT]))))
  /\ (forall name1 args1 name2 args2 k1 f1 j1 k2 f2 j2,
        Query.resolve name1 = Return (k1, f1, j1) ->
        Query.resolve name2 = Return (k2, f2, j2) ->
        k1 <> k2 ->
        let one := Query.add Query.init name1 args1 in
        let two := Query.add Query.init name2 args2 in
        let one_two := Query.add one.1 name2 args2 in
        let two_one := Query.add two.1 name1 args1 in
        one_two.1 = two_one.1
        /\ one_two.2 = two.2 /\ two_one.2 = one.2
        /\ exists sql, Query.build one_two.1 = Return sql
                       /\ Query.build two_one.1 = Return sql).
Proof.
  split.
  - intros self Hreach. unfold Query.build.
    rewrite build_parts_enumeration; [reflexivity|].
    intros keyword.
    destruct (reachable_flags_sound _ Hreach keyword) as (clause & -> & _).
    eauto.
  - intros name1 args1 name2 args2 k1 f1 j1 k2 f2 j2 Hone Htwo Hne.
    cbv zeta.
    destruct (add_commute Query.init name1 args1 name2 args2
                _ _ _ _ _ _ Hone Htwo Hne) as (Hstate & Hres2 & Hres1).
    split; [exact Hstate|]. split; [exact Hres2|]. split; [exact Hres1|].
    rewrite <- Hstate.
    assert (Hreach : reachable
              (Query.add (Query.add Query.init name1 args1).1 name2 args2).1)
      by (do 2 apply reachable_add; apply reachable_init).
    unfold Query.build. rewrite build_parts_enumeration; [eauto|].
    intros keyword.
    destruct (reachable_flags_sound _ Hreach keyword) as (clause & -> & _).
    eauto.
Qed.

Lemma build_order_invariance_witness :
  let one := Query.add Query.init "WHERE" [Plain (PyStrV "active = 1")] in
  let two := Query.add Query.init "SELECT" [Plain (PyStrV "name")] in
  let one_two := Query.add one.1 "SELECT" [Plain (PyStrV "name")] in
  let two_one := Query.add two.1 "WHERE" [Plain (PyStrV "active = 1")] in
  Query.resolve "WHERE" = Return (WHERE, "", "")
  /\ Query.resolve "SELECT" = Return (SELECT, "", "")
  /\ WHERE <> SELECT
  /\ one_two.1 = two_one.1
  /\ one_two.2 = two.2 /\ two_one.2 = one.2
  /\ exists sql, Query.build one_two.1 = Return sql
                 /\ Query.build two_one.1 = Return sql.
Proof.
  intros one two one_two two_one.
  assert (Hone : Query.resolve "WHERE" = Return (WHERE, "", ""))
    by (vm_compute; reflexivity).
  assert (Htwo : Query.resolve "SELECT" = Return (SELECT, "", ""))
    by (vm_compute; reflexivity).
  assert (Hne : WHERE <> SELECT) by discriminate.
  split; [exact Hone|]. split; [exact Htwo|]. split; [exact Hne|].
  exact (proj2 build_order_invariance
           "WHERE" [Plain (PyStrV "active = 1")]
           "SELECT" [Plain (PyStrV "name")]
           WHERE "" "" SELECT "" "" Hone Htwo Hne).
Defined.

(** ** Groups of a clause *)

Lemma first_seen_elem seen keys key :
  key ∈ first_seen seen keys -> (key ∉ seen) /\ (key ∈ keys).
Proof.
  revert seen. induction keys as [|k rest IH]; intros seen; simpl.
  - intros H. destruct (not_elem_of_nil _ H).
  - case_bool_decide as Hseen.
    + intros H. destruct (IH _ H) as [Hnew Hin].
      split; [exact Hnew|]. apply list_elem_of_further, Hin.
    + intros H. apply elem_of_cons in H as [->|H].
      * split; [exact Hseen|]. apply list_elem_of_here.
      * destruct (IH _ H) as [Hnew Hin]. split.
        -- intros Hold. apply Hnew, elem_of_app. left. exact Hold.
        -- apply list_elem_of_further, Hin.
Qed.

Lemma first_seen_NoDup seen keys : NoDup (first_seen seen keys).
Proof.
  revert seen. induction keys as [|k rest IH]; intros seen; simpl.
  - constructor.
  - case_bool_decide as Hseen; [apply IH|].
    apply NoDup_cons. split; [|apply IH].
    intros H. apply first_seen_elem in H as [Hnew _].
    apply Hnew, elem_of_app. right. apply list_elem_of_here.
Qed.

Lemma tagged_with_here join_key element elements :
  QueryElement.join_keyword element = join_key ->
  tagged_with join_key (element :: elements)
  = element :: tagged_with join_key elements.
Proof. intros H. unfold tagged_with. apply filter_cons_True, H. Qed.

Lemma tagged_with_skip join_key element elements :
  QueryElement.join_keyword element <> join_key ->
  tagged_with join_key (element :: elements) = tagged_with join_key elements.
Proof. intros H. unfold tagged_with. apply filter_cons_False, H. Qed.

Lemma tagged_with_nonempty join_key elements :
  join_key ∈ map QueryElement.join_keyword elements ->
  tagged_with join_key elements <> [].
Proof.
  induction elements as [|element rest IH]; simpl; intros H.
  - destruct (not_elem_of_nil _ H).
  - destruct (decide (QueryElement.join_keyword element = join_key))
      as [Heq|Hne].
    + rewrite (tagged_with_here _ _ _ Heq). discriminate.
    + rewrite (tagged_with_skip _ _ _ Hne). apply IH.
      apply elem_of_cons in H as [->|H]; [destruct (Hne eq_refl)|exact H].
Qed.

Lemma group_append_keys groups join_key element :
  (Query.group_append groups join_key element).*1 = groups.*1.
Proof.
  induction groups as [|[key members] rest IH]; simpl; [reflexivity|].
  destruct (String.eqb key join_key); simpl; [reflexivity|].
  f_equal. exact IH.
Qed.

(** With one group per key, appending an element to the group of its key
    is adding it to the elements still to be sorted into the groups. *)
Lemma group_append_tagged groups element elements :
  NoDup groups.*1 ->
  map (fun group => (group.1, group.2 ++ tagged_with group.1 elements))
      (Query.group_append groups (QueryElement.join_keyword element) element)
  = map (fun group =>
           (group.1, group.2 ++ tagged_with group.1 (element :: elements)))
        groups.
Proof.
  induction groups as [|[key members] rest IH]; simpl; intros Hkeys;
    [reflexivity|].
  apply NoDup_cons in Hkeys as [Hfresh Hkeys].
  destruct (String.eqb_spec key (QueryElement.join_keyword element))
    as [->|Hne]; simpl.
  - rewrite (tagged_with_here _ _ _ eq_refl), <- app_assoc. f_equal.
    apply map_ext_in. intros [key' members'] Hin. simpl.
    rewrite tagged_with_skip; [reflexivity|].
    intros Heq. apply Hfresh. rewrite Heq.
    apply list_elem_of_fmap. exists (key', members').
    split; [reflexivity|]. apply list_elem_of_In, Hin.
  - rewrite (tagged_with_skip key); [|congruence].
    rewrite (IH Hkeys). reflexivity.
Qed.

Lemma group_fold groups elements :
  NoDup groups.*1 ->
  foldl Query.group_step groups elements
  = map (fun group => (group.1, group.2 ++ tagged_with group.1 elements))
        groups
    ++ map (fun join_key => (join_key, tagged_with join_key elements))
           (first_seen groups.*1 (map QueryElement.join_keyword elements)).
Proof.
  revert groups. induction elements as [|element rest IH];
    intros groups Hkeys; simpl.
  - rewrite app_nil_r. symmetry. rewrite <- (map_id groups) at 2.
    apply map_ext. intros [key members]. simpl.
    rewrite app_nil_r. reflexivity.
  - unfold Query.group_step at 2.
    case_bool_decide as Hseen.
    + rewrite IH by (rewrite group_append_keys; exact Hkeys).
      rewrite group_append_keys, (group_append_tagged _ _ _ Hkeys).
      f_equal. apply map_ext_in. intros key Hin.
      rewrite tagged_with_skip; [reflexivity|].
      intros Heq. apply list_elem_of_In, first_seen_elem in Hin as [Hnew _].
      apply Hnew. rewrite <- Heq. exact Hseen.
    + assert (Hkeys' : NoDup (groups ++
                 [(QueryElement.join_keyword element, [])]).*1).
      { rewrite fmap_app. apply NoDup_app. split; [exact Hkeys|].
        split; [|apply NoDup_singleton].
        intros key Hin Hnew. apply list_elem_of_singleton in Hnew as ->.
        exact (Hseen Hin). }
      rewrite IH by (rewrite group_append_keys; exact Hkeys').
      rewrite group_append_keys, (group_append_tagged _ _ _ Hkeys').
      rewrite map_app, <- app_assoc, fmap_app. simpl. f_equal. f_equal.
      apply map_ext_in. intros key Hin.
      rewrite tagged_with_skip; [reflexivity|].
      intros Heq. apply list_elem_of_In, first_seen_elem in Hin as [Hnew _].
      apply Hnew, elem_of_app. right. rewrite Heq.
      apply list_elem_of_here.
Qed.

(** The groups of a clause: the untagged elements first, then the elements
    of each join keyword, the keywords in the order of their first
    elements. *)
Lemma group_elements_by_join_spec elements :
  Query._group_elements_by_join elements
  = ("", tagged_with "" elements)
    :: map (fun join_key => (join_key, tagged_with join_key elements))
           (first_seen [""] (map QueryElement.join_keyword elements)).
Proof.
  unfold Query._group_elements_by_join.
  rewrite group_fold by apply NoDup_singleton. reflexivity.
Qed.

Lemma group_parts_default keyword members :
  Query.group_parts keyword ("", members)
  = [_indent_text
       (PyStr.join (Query.separator keyword)
          (map (Query._format_element keyword) members)) 4].
Proof. reflexivity. Qed.

Lemma group_parts_tagged keyword join_key members :
  join_key <> "" ->
  Query.group_parts keyword (join_key, members)
  = [join_key;
     _indent_text
       (PyStr.join (Query.separator keyword)
          (map (Query._format_element keyword) members)) 4].
Proof. destruct join_key; [congruence|reflexivity]. Qed.

(** C3, as amended: when [build] renders a clause that has elements, the
    elements are split into groups by join keyword, the untagged group
    first, whether or not it has elements, then one group per join keyword
    in the order in which the keywords are first met, each holding the
    elements of its keyword in their order.  The parts of the clause are
    the keyword line, then the line of the untagged group, then for each
    tagged group its join keyword and its line.  A tagged group always has
    elements; the untagged group, when it has none, still contributes its
    line, which is the empty string. *)
Theorem clause_groups keyword clause :
  ClauseCollection.is_empty clause = false ->
  let elements := ClauseCollection.elements clause in
  let tags := first_seen [""] (map QueryElement.join_keyword elements) in
  let body members :=
    _indent_text
      (PyStr.join (Query.separator keyword)
         (map (Query._format_element keyword) members)) 4 in
  Query._group_elements_by_join elements
  = ("", tagged_with "" elements)
    :: map (fun tag => (tag, tagged_with tag elements)) tags
  /\ NoDup tags
  /\ Forall (fun tag => tag <> "" /\ tagged_with tag elements <> []) tags
  /\ Query.clause_parts keyword clause
     = Query.keyword_line keyword clause
       :: body (tagged_with "" elements)
       :: concat (map (fun tag => [tag; body (tagged_with tag elements)])
                    tags)
  /\ (tagged_with "" elements = [] -> body (tagged_with "" elements) = "").
Proof.
  intros Hsome elements tags body.
  assert (Htags : Forall (fun tag => tag <> ""
                            /\ tagged_with tag elements <> []) tags).
  { apply Forall_forall. intros tag Hin.
    apply first_seen_elem in Hin as [Hnew Hin]. split.
    - intros ->. apply Hnew, list_elem_of_here.
    - apply tagged_with_nonempty, Hin. }
  split; [apply group_elements_by_join_spec|].
  split; [apply first_seen_NoDup|]. split; [exact Htags|]. split.
  - unfold Query.clause_parts. rewrite Hsome.
    fold elements. rewrite group_elements_by_join_spec. fold tags.
    cbn [map concat]. rewrite group_parts_default, map_map.
    cbn [app]. f_equal. f_equal. f_equal.
    apply map_ext_in. intros tag Hin.
    apply group_parts_tagged.
    rewrite Forall_forall in Htags.
    apply (Htags tag), list_elem_of_In, Hin.
  - intros ->. reflexivity.
Qed.

Lemma clause_groups_witness :
  let clause :=
    {| ClauseCollection.elements :=
         [{| QueryElement.value := "users u"; QueryElement.alias := "";
             QueryElement.join_keyword := "";
             QueryElement.is_subquery := false |};
          {| QueryElement.value := "posts p ON u.id = p.user_id";
             QueryElement.alias := "";
             QueryElement.join_keyword := "LEFT JOIN";
             QueryElement.is_subquery := false |}];
       ClauseCollection.flag := None |} in
  Query._clauses
    (Query.add (Query.call Query.init "FROM" [Plain (PyStrV "users u")]).1
       "LEFT JOIN" [Plain (PyStrV "posts p ON u.id = p.user_id")]).1 !! FROM
  = Some clause
  /\ ClauseCollection.is_empty clause = false
  /\ Query.clause_parts FROM clause
     = ["FROM"; "    users u"; "LEFT JOIN";
        "    posts p ON u.id = p.user_id"].
Proof.
  intros clause.
  assert (Hsome : ClauseCollection.is_empty clause = false) by reflexivity.
  split; [vm_compute; reflexivity|]. split; [exact Hsome|].
  destruct (clause_groups FROM clause Hsome) as (_ & _ & _ & -> & _).
  vm_compute. reflexivity.
Defined.

(** C3 as it is written fails: when every element of the clause is join
    tagged, the empty untagged group is not passed over; it gives an empty
    line between the keyword line and the first join keyword. *)
Lemma clause_groups_counterexample :
  let self :=
    (Query.add Query.init "LEFT JOIN"
       [Plain (PyStrV "posts p ON u.id = p.user_id")]).1 in
  Query.group_parts FROM ("", []) = [""]
  /\ Query.build self
     = Return ("FROM" +:+ LF +:+ "" +:+ LF +:+ "LEFT JOIN" +:+ LF
               +:+ "    posts p ON u.id = p.user_id")
  /\ Query.build self
     <> Return ("FROM" +:+ LF +:+ "LEFT JOIN" +:+ LF
                +:+ "    posts p ON u.id = p.user_id").
Proof.
  intros self. split; [reflexivity|].
  split; [vm_compute; reflexivity|]. vm_compute. discriminate.
Qed.

(** * Further properties of the builder *)

(** ** Resolution of clause names *)

Lemma startswith_app s a b :
  PyStr.startswith s (a +:+ b) = true ->
  PyStr.startswith (PyStr.drop (String.length a) s) b = true.
Proof.
  revert s. induction a as [|x a IH]; intros s; simpl; [auto|].
  destruct s as [|y s]; [discriminate|].
  intros H. apply andb_true_iff in H as [_ H]. apply IH, H.
Qed.

Lemma contains_here s needle :
  PyStr.startswith s needle = true -> PyStr.contains s needle = true.
Proof. intros H. destruct s; cbn [PyStr.contains]; rewrite H; reflexivity. Qed.

Lemma contains_drop n s needle :
  PyStr.contains (PyStr.drop n s) needle = true ->
  PyStr.contains s needle = true.
Proof.
  revert s. induction n as [|n IH]; intros s; [destruct s; auto|].
  destruct s as [|c s]; [auto|]. simpl PyStr.drop. intros H.
  cbn [PyStr.contains]. rewrite (IH _ H). apply orb_true_r.
Qed.

(** A text that contains [a] followed by [b] contains [b]. *)
Lemma contains_suffix s a b :
  PyStr.contains s (a +:+ b) = true -> PyStr.contains s b = true.
Proof.
  induction s as [|c s IH]; cbn [PyStr.contains].
  - rewrite orb_false_r. intros H.
    apply startswith_app in H. apply contains_here in H.
    apply contains_drop in H. exact H.
  - intros H. apply orb_true_iff in H as [H|H].
    + apply startswith_app in H. apply contains_here in H.
      apply contains_drop in H. exact H.
    + rewrite (IH H). apply orb_true_r.
Qed.

Lemma resolve_join_alias_join clause_name :
  Query._resolve_join_alias clause_name
  = if PyStr.contains clause_name "JOIN" then ("FROM", clause_name)
    else (clause_name, "").
Proof.
  unfold Query._resolve_join_alias, Query.JOIN_ALIASES. cbn [List.find fst].
  destruct (PyStr.contains clause_name "JOIN") eqn:Hjoin; [reflexivity|].
  repeat match goal with
         | |- context [PyStr.contains clause_name ?marker] =>
             let H := fresh "H" in
             destruct (PyStr.contains clause_name marker) eqn:H;
               [first [ apply (contains_suffix _ "INNER " "JOIN") in H
                      | apply (contains_suffix _ "LEFT " "JOIN") in H
                      | apply (contains_suffix _ "RIGHT " "JOIN") in H
                      | apply (contains_suffix _ "FULL " "JOIN") in H
                      | apply (contains_suffix _ "CROSS " "JOIN") in H ];
                congruence|]
         end.
  reflexivity.
Qed.

Lemma resolve_join clause_name :
  PyStr.contains clause_name "JOIN" = true ->
  Query.resolve clause_name = Return (FROM, "", clause_name).
Proof.
  intros Hjoin. unfold Query.resolve.
  rewrite resolve_join_alias_join, Hjoin. reflexivity.
Qed.

(** X1: a clause name is sent to [FROM] exactly when it contains [JOIN],
    wherever and with whatever around it: the five longer markers of
    [JOIN_ALIASES] never decide.  The whole name then becomes the join
    keyword of the elements, no flag is parsed from it and its resolution
    does not fail. *)
Theorem join_names_go_to_from clause_name :
  Query._resolve_join_alias clause_name
  = (if PyStr.contains clause_name "JOIN" then ("FROM", clause_name)
     else (clause_name, ""))
  /\ (PyStr.contains clause_name "JOIN" = true ->
      Query.resolve clause_name = Return (FROM, "", clause_name)).
Proof. split; [apply resolve_join_alias_join|apply resolve_join]. Qed.

Lemma join_names_go_to_from_witness :
  PyStr.contains "SELECT x JOINED" "JOIN" = true
  /\ Query.resolve "SELECT x JOINED" = Return (FROM, "", "SELECT x JOINED").
Proof.
  assert (Hjoin : PyStr.contains "SELECT x JOINED" "JOIN" = true)
    by (vm_compute; reflexivity).
  split; [exact Hjoin|].
  exact (proj2 (join_names_go_to_from "SELECT x JOINED") Hjoin).
Defined.

(** What [_parse_flag] returns without a flag is the clause name itself. *)
Lemma parse_flag_unflagged clause_name actual flag :
  Query._parse_flag clause_name = Return (actual, flag) ->
  PyStr.truthy flag = false ->
  actual = clause_name /\ flag = "".
Proof.
  unfold Query._parse_flag.
  destruct (PyStr.split clause_name) as [|base_clause [|potential_flag rest]].
  - discriminate.
  - intros [= <- <-]. auto.
  - destruct (SQLKeyword_of_value base_clause) as [keyword|];
      [|intros [= <- <-]; auto].
    destruct (Query.assoc Query.FLAGGABLE_KEYWORDS keyword) as [flags|];
      [|intros [= <- <-]; auto].
    destruct (SQLFlag_of_value potential_flag) as [parsed|] eqn:Hflag;
      [|intros [= <- <-]; auto].
    apply SQLFlag_of_value_Some in Hflag as ->.
    destruct (bool_decide (parsed ∈ flags)); intros [= <- <-]; auto.
    destruct parsed; discriminate.
Qed.

(** X2: keyword resolution is an exact, case sensitive match: a clause name
    resolves to a keyword with no flag and no join keyword exactly when it
    is the value of that keyword, the two-word values [GROUP BY] and
    [ORDER BY] included. *)
Theorem resolve_exact clause_name keyword :
  Query.resolve clause_name = Return (keyword, "", "")
  <-> clause_name = SQLKeyword_value keyword.
Proof.
  split.
  - unfold Query.resolve. rewrite resolve_join_alias_join.
    destruct (PyStr.contains clause_name "JOIN") eqn:Hjoin.
    + destruct (Query._parse_flag "FROM") as [[actual flag]|]; [|discriminate].
      destruct (SQLKeyword_of_value actual); [|discriminate].
      intros [= _ _ ->]. discriminate Hjoin.
    + destruct (Query._parse_flag clause_name) as [[actual flag]|] eqn:Hparse;
        [|discriminate].
      destruct (SQLKeyword_of_value actual) as [keyword'|] eqn:Hkeyword;
        [|discriminate].
      intros [= -> ->].
      destruct (parse_flag_unflagged _ _ _ Hparse eq_refl) as [-> _].
      apply SQLKeyword_of_value_Some, Hkeyword.
  - intros ->. destruct keyword; vm_compute; reflexivity.
Qed.

Lemma split_nil_all_space s :
  PyStr.split s = [] -> PyStr.all_space s = true.
Proof.
  induction s as [|c s IH]; simpl; [reflexivity|].
  destruct (PyStr.isspace_char c); [exact IH|].
  destruct s as [|c' s]; [discriminate|].
  destruct (PyStr.isspace_char c'); [discriminate|].
  destruct (PyStr.split (String c' s)); discriminate.
Qed.

Lemma all_space_no_join s :
  PyStr.all_space s = true -> PyStr.contains s "JOIN" = false.
Proof.
  induction s as [|c s IH]; [reflexivity|].
  cbn [PyStr.all_space PyStr.contains PyStr.startswith].
  intros H. apply andb_true_iff in H as [Hc Hs]. rewrite (IH Hs).
  destruct (Ascii.eqb_spec "J" c) as [<-|_]; [discriminate Hc|reflexivity].
Qed.

(** X3: a clause name without a token, the empty name or one of whitespace
    only, makes [add] raise [IndexError], on any builder and whatever the
    fragments; the builder is left as it was. *)
Theorem add_blank_name self clause_name args :
  PyStr.split clause_name = [] ->
  Query.add self clause_name args = (self, Raise IndexError).
Proof.
  intros Hblank. unfold Query.add, Query.resolve.
  rewrite resolve_join_alias_join.
  rewrite (all_space_no_join _ (split_nil_all_space _ Hblank)).
  unfold Query._parse_flag. rewrite Hblank. reflexivity.
Qed.

Lemma add_blank_name_witness :
  let self := (Query.add Query.init "SELECT" [Plain (PyStrV "a")]).1 in
  PyStr.split "   " = []
  /\ Query.add self "   " [Plain (PyStrV "b")] = (self, Raise IndexError).
Proof.
  intros self.
  assert (Hblank : PyStr.split "   " = []) by (vm_compute; reflexivity).
  split; [exact Hblank|].
  exact (add_blank_name self "   " [Plain (PyStrV "b")] Hblank).
Defined.

(** ** Calls of [add] that return *)

Lemma created_element_of keyword join_keyword arg :
  accepted_fragment arg = true ->
  created keyword join_keyword arg (element_of keyword join_keyword arg).
Proof.
  intros Hok. unfold created. rewrite create_cases, Hok.
  assert (Hkw : forall value alias,
            QueryElement.make value alias
              (Query.element_kwargs keyword join_keyword)
            = {| QueryElement.value := value; QueryElement.alias := alias;
                 QueryElement.join_keyword := join_keyword;
                 QueryElement.is_subquery := bool_decide (keyword = WITH) |}).
  { intros value alias. unfold QueryElement.make, Query.element_kwargs.
    simpl. f_equal.
    - destruct join_keyword; reflexivity.
    - destruct keyword; reflexivity. }
  destruct arg; simpl; rewrite Hkw; reflexivity.
Qed.

Lemma add_elements_accepted clause keyword join_keyword args :
  Forall (fun arg => accepted_fragment arg = true) args ->
  Query.add_elements clause keyword join_keyword args
  = ({| ClauseCollection.elements :=
          ClauseCollection.elements clause
          ++ map (element_of keyword join_keyword) args;
        ClauseCollection.flag := ClauseCollection.flag clause |}, Return tt).
Proof.
  intros Hok. revert clause.
  induction Hok as [|arg rest Harg _ IH]; intros clause; simpl.
  - rewrite app_nil_r. destruct clause; reflexivity.
  - rewrite (created_element_of keyword join_keyword arg Harg), IH.
    unfold ClauseCollection.add_element. simpl.
    rewrite <- app_assoc. reflexivity.
Qed.

(** X4: on a reachable builder, a call of [add] whose clause name resolves
    and whose fragments are all [str] values or two-item pairs returns,
    unless the name carries a flag and the clause store holds one.  It
    appends to the clause store of the keyword one element per fragment,
    in the order of the fragments and behind the elements already there,
    each with the join keyword of the call and the subquery mark of
    [WITH]; it records the flag of the name; it leaves the other clause
    stores as they are. *)
Theorem add_returns self clause_name args keyword flag join_keyword :
  reachable self ->
  Query.resolve clause_name = Return (keyword, flag, join_keyword) ->
  Forall (fun arg => accepted_fragment arg = true) args ->
  (PyStr.truthy flag = true ->
   forall clause, Query._clauses self !! keyword = Some clause ->
                  ClauseCollection.flag clause = None) ->
  exists clause,
    Query._clauses self !! keyword = Some clause
    /\ Query.add self clause_name args
       = (Query.store self keyword
            {| ClauseCollection.elements :=
                 ClauseCollection.elements clause
                 ++ map (element_of keyword join_keyword) args;
               ClauseCollection.flag :=
                 if PyStr.truthy flag then Some flag
                 else ClauseCollection.flag clause |},
          Return tt).
Proof.
  intros Hreach Hresolve Hok Hfree.
  destruct (reachable_flags_sound _ Hreach keyword) as (clause & Hlookup & _).
  exists clause. split; [exact Hlookup|].
  rewrite (add_resolved _ _ _ _ _ _ _ Hresolve Hlookup).
  destruct (PyStr.truthy flag) eqn:Htruthy.
  - specialize (Hfree eq_refl clause Hlookup).
    unfold ClauseCollection.set_flag. rewrite Hfree. simpl.
    rewrite (add_elements_accepted _ _ _ _ Hok). reflexivity.
  - simpl. rewrite (add_elements_accepted _ _ _ _ Hok). reflexivity.
Qed.

Lemma add_returns_witness :
  let self := (Query.add Query.init "FROM" [Plain (PyStrV "users u")]).1 in
  let args := [Plain (PyStrV "posts p"); PyTuple [PyStrV "c"; PyStrV "tags"]] in
  reachable self
  /\ Query.resolve "LEFT JOIN" = Return (FROM, "", "LEFT JOIN")
  /\ Forall (fun arg => accepted_fragment arg = true) args
  /\ exists clause,
       Query._clauses self !! FROM = Some clause
       /\ Query.add self "LEFT JOIN" args
          = (Query.store self FROM
               {| ClauseCollection.elements :=
                    ClauseCollection.elements clause
                    ++ map (element_of FROM "LEFT JOIN") args;
                  ClauseCollection.flag :=
                    if PyStr.truthy "" then Some ""
                    else ClauseCollection.flag clause |},
             Return tt).
Proof.
  intros self args.
  assert (Hreach : reachable self) by (apply reachable_add, reachable_init).
  assert (Hresolve : Query.resolve "LEFT JOIN"
                     = Return (FROM, "", "LEFT JOIN"))
    by (vm_compute; reflexivity).
  assert (Hok : Forall (fun arg => accepted_fragment arg = true) args)
    by (repeat constructor).
  split; [exact Hreach|]. split; [exact Hresolve|]. split; [exact Hok|].
  apply (add_returns self "LEFT JOIN" args FROM "" "LEFT JOIN"
           Hreach Hresolve Hok).
  intros Htruthy. discriminate Htruthy.
Defined.

Lemma add_elements_app clause keyword join_keyword args more :
  Query.add_elements clause keyword join_keyword (args ++ more)
  = match Query.add_elements clause keyword join_keyword args with
    | (clause', Return _) =>
        Query.add_elements clause' keyword join_keyword more
    | (clause', Raise e) => (clause', Raise e)
    end.
Proof.
  revert clause. induction args as [|arg rest IH]; intros clause; simpl.
  - reflexivity.
  - destruct (QueryElement.create arg _); [apply IH|reflexivity].
Qed.

Lemma store_store self keyword clause clause' :
  Query.store (Query.store self keyword clause) keyword clause'
  = Query.store self keyword clause'.
Proof. unfold Query.store. simpl. f_equal. apply insert_insert_eq. Qed.

(** X5: the fragments of a call can be spread over several calls.  For a
    clause name without a flag, one [add] with the fragments [args ++ more]
    leaves what [add] with [args] followed by [add] with [more] leaves, and
    raises what they raise: when the first of the two raises, the second is
    not made. *)
Theorem add_split self clause_name args more keyword join_keyword :
  Query.resolve clause_name = Return (keyword, "", join_keyword) ->
  Query.add self clause_name (args ++ more)
  = match Query.add self clause_name args with
    | (self', Return _) => Query.add self' clause_name more
    | (self', Raise e) => (self', Raise e)
    end.
Proof.
  intros Hresolve.
  destruct (Query._clauses self !! keyword) as [clause|] eqn:Hlookup.
  - rewrite !(add_resolved self _ _ _ _ _ _ Hresolve Hlookup).
    cbn [PyStr.truthy fst snd]. cbv zeta. rewrite add_elements_app.
    destruct (Query.add_elements clause keyword join_keyword args)
      as [clause' [[]|e]]; cbn [fst snd]; [|reflexivity].
    rewrite (add_resolved _ _ _ _ _ _ _ Hresolve (store_lookup _ _ _)).
    cbn [PyStr.truthy fst snd]. cbv zeta. rewrite store_store.
    destruct (Query.add_elements clause' keyword join_keyword more);
      reflexivity.
  - unfold Query.add. rewrite Hresolve, Hlookup. reflexivity.
Qed.

Lemma add_split_witness :
  let one := Query.add Query.init "WHERE" [Plain (PyStrV "a = 1")] in
  Query.resolve "WHERE" = Return (WHERE, "", "")
  /\ Query.add Query.init "WHERE" [Plain (PyStrV "a = 1"); Plain (PyStrV "b = 2")]
     = Query.add one.1 "WHERE" [Plain (PyStrV "b = 2")].
Proof.
  intros one.
  assert (Hresolve : Query.resolve "WHERE" = Return (WHERE, "", ""))
    by (vm_compute; reflexivity).
  split; [exact Hresolve|].
  exact (add_split Query.init "WHERE" [Plain (PyStrV "a = 1")]
           [Plain (PyStrV "b = 2")] WHERE "" Hresolve).
Defined.

(** ** What a call of [add] can do to a builder *)

(** Whatever the loop of [add] does, the clause store comes out with its
    elements followed by those of some of the fragments. *)
Lemma add_elements_grows clause keyword join_keyword args :
  exists consumed added,
    Forall2 (created keyword join_keyword) consumed added
    /\ (exists rest, args = consumed ++ rest)
    /\ (Query.add_elements clause keyword join_keyword args).1
       = {| ClauseCollection.elements :=
              ClauseCollection.elements clause ++ added;
            ClauseCollection.flag := ClauseCollection.flag clause |}.
Proof.
  destruct (Query.add_elements clause keyword join_keyword args)
    as [clause' [[]|e]] eqn:Hloop.
  - apply add_elements_return in Hloop as (added & Hall & ->).
    exists args, added. split; [exact Hall|]. split; [|reflexivity].
    exists []. rewrite app_nil_r. reflexivity.
  - apply add_elements_raise in Hloop
      as (before & bad & after & added & -> & _ & _ & Hall & ->).
    exists before, added. split; [exact Hall|]. split; [|reflexivity].
    exists (bad :: after). reflexivity.
Qed.

(** X6: no call of [add], returning or raising, removes, changes or
    reorders an element: every clause store keeps its elements as the
    beginning of what it holds afterwards, and a clause store of another
    keyword than the one the clause name resolves to is not touched at
    all. *)
Theorem add_keeps_elements self clause_name args keyword clause :
  Query._clauses self !! keyword = Some clause ->
  exists clause' added,
    Query._clauses (Query.add self clause_name args).1 !! keyword
    = Some clause'
    /\ ClauseCollection.elements clause'
       = ClauseCollection.elements clause ++ added
    /\ ((forall flag join_keyword,
           Query.resolve clause_name
           <> Return (keyword, flag, join_keyword)) ->
        clause' = clause).
Proof.
  intros Hlookup.
  destruct (Query.add self clause_name args) as [self' result] eqn:Hadd.
  simpl. apply add_cases in Hadd
    as [(e & _ & -> & _)
       |[(k & f & jk & _ & _ & -> & _)
        |[(k & f & jk & c & h & _ & _ & _ & _ & _ & -> & _)
         |(k & f & jk & c & c' & Hresolve & Hlookup' & _ & Hloop & ->)]]];
    try solve [exists clause, []; rewrite app_nil_r; auto].
  destruct (decide (k = keyword)) as [->|Hne].
  - rewrite Hlookup in Hlookup'. injection Hlookup' as <-.
    destruct (add_elements_grows
                {| ClauseCollection.elements :=
                     ClauseCollection.elements clause;
                   ClauseCollection.flag :=
                     if PyStr.truthy f then Some f
                     else ClauseCollection.flag clause |}
                keyword jk args) as (consumed & added & _ & _ & Hgrow).
    rewrite Hloop in Hgrow. simpl in Hgrow.
    exists c', added. split; [apply store_lookup|].
    split; [rewrite Hgrow; reflexivity|].
    intros Hnot. destruct (Hnot _ _ Hresolve).
  - exists clause, []. rewrite app_nil_r.
    split; [rewrite (store_lookup_ne _ _ _ _ Hne); exact Hlookup|auto].
Qed.

Lemma add_keeps_elements_witness :
  let self := (Query.add Query.init "SELECT" [Plain (PyStrV "a")]).1 in
  let clause :=
    {| ClauseCollection.elements := [element_of SELECT "" (Plain (PyStrV "a"))];
       ClauseCollection.flag := None |} in
  Query._clauses self !! SELECT = Some clause
  /\ exists clause' added,
       Query._clauses
         (Query.add self "SELECT" [Plain (PyStrV "b"); Plain PyNone]).1
         !! SELECT = Some clause'
       /\ ClauseCollection.elements clause'
          = ClauseCollection.elements clause ++ added
       /\ ((forall flag join_keyword,
              Query.resolve "SELECT" <> Return (SELECT, flag, join_keyword)) ->
           clause' = clause).
Proof.
  intros self clause.
  assert (Hlookup : Query._clauses self !! SELECT = Some clause)
    by (vm_compute; reflexivity).
  split; [exact Hlookup|].
  exact (add_keeps_elements self "SELECT"
           [Plain (PyStrV "b"); Plain PyNone] SELECT clause Hlookup).
Defined.

Lemma resolve_index_error clause_name :
  Query.resolve clause_name = Raise IndexError ->
  PyStr.split clause_name = [].
Proof.
  unfold Query.resolve. rewrite resolve_join_alias_join.
  destruct (PyStr.contains clause_name "JOIN"); [discriminate|].
  destruct (Query._parse_flag clause_name) as [[actual flag]|e] eqn:Hparse.
  - destruct (SQLKeyword_of_value actual); discriminate.
  - intros _. apply parse_flag_raise in Hparse as [_ Hblank]. exact Hblank.
Qed.

(** The clause name [UnsupportedClause] carries is the one given to
    [add]. *)
Lemma resolve_unsupported clause_name rejected :
  Query.resolve clause_name = Raise (UnsupportedClause rejected) ->
  rejected = clause_name.
Proof.
  unfold Query.resolve. rewrite resolve_join_alias_join.
  destruct (PyStr.contains clause_name "JOIN"); [discriminate|].
  destruct (Query._parse_flag clause_name) as [[actual flag]|e] eqn:Hparse.
  - destruct (SQLKeyword_of_value actual) as [keyword|] eqn:Hkeyword;
      [discriminate|]. intros [= <-].
    destruct (PyStr.truthy flag) eqn:Htruthy.
    + destruct (parse_flag_flagged _ _ _ Hparse Htruthy) as (-> & _).
      discriminate Hkeyword.
    + destruct (parse_flag_unflagged _ _ _ Hparse Htruthy) as [-> _].
      reflexivity.
  - apply parse_flag_raise in Hparse as [-> _]. discriminate.
Qed.

(** X7: the exceptions of [add] on a reachable builder.  It raises
    [IndexError] for a clause name without a token, [UnsupportedClause]
    carrying the clause name as it was given, [FlagConflict] between two
    flags of [SELECT], or [InvalidArgument] carrying one of the fragments,
    one that is neither a [str] nor a two-item pair; it never raises
    [KeyError] or [AttributeError]. *)
Theorem add_exceptions self clause_name args e :
  reachable self ->
  (Query.add self clause_name args).2 = Raise e ->
  (e = IndexError /\ PyStr.split clause_name = [])
  \/ (e = UnsupportedClause clause_name
      /\ Query.resolve clause_name = Raise e)
  \/ (exists held new join_keyword,
        e = FlagConflict held new
        /\ (held = "DISTINCT" \/ held = "ALL")
        /\ (new = "DISTINCT" \/ new = "ALL")
        /\ Query.resolve clause_name = Return (SELECT, new, join_keyword))
  \/ (exists bad,
        e = InvalidArgument bad /\ bad ∈ args
        /\ accepted_fragment bad = false).
Proof.
  intros Hreach Hraise.
  destruct (Query.add self clause_name args) as [self' result] eqn:Hadd.
  simpl in Hraise. subst result. apply add_cases in Hadd
    as [(e' & Hresolve & _ & [= <-])
       |[(k & f & jk & _ & Hnone & _ & _)
        |[(k & f & jk & c & h & Hresolve & Hlookup & Htruthy & Hheld & _
           & _ & [= ->])
         |(k & f & jk & c & c' & _ & _ & _ & Hloop & _)]]].
  - destruct (resolve_raise _ _ Hresolve) as [->|[rejected ->]].
    + left. split; [reflexivity|]. apply resolve_index_error, Hresolve.
    + right; left. rewrite <- (resolve_unsupported _ _ Hresolve) at 1.
      split; [reflexivity|exact Hresolve].
  - destruct (reachable_flags_sound _ Hreach k) as (c & Hsome & _).
    rewrite Hsome in Hnone. discriminate.
  - right; right; left.
    destruct (resolve_flagged _ _ _ _ Hresolve Htruthy) as [-> Hnew].
    exists h, f, jk.
    split; [reflexivity|]. split; [|split; [exact Hnew|exact Hresolve]].
    destruct (reachable_flags_sound _ Hreach SELECT) as (c0 & Hlookup0 & Hc0).
    rewrite Hlookup in Hlookup0. injection Hlookup0 as <-.
    rewrite Hheld in Hc0.
    destruct Hc0 as [|[_ [[= ->]|[= ->]]]]; [discriminate|auto|auto].
  - do 3 right.
    apply add_elements_raise in Hloop
      as (before & bad & after & added & -> & -> & Hbad & _).
    exists bad. split; [reflexivity|]. split; [|exact Hbad].
    apply elem_of_app. right. apply list_elem_of_here.
Qed.

Lemma add_exceptions_witness :
  let self := (Query.add Query.init "SELECT ALL" [Plain (PyStrV "a")]).1 in
  reachable self
  /\ (Query.add self "SELECT DISTINCT" []).2
     = Raise (FlagConflict "ALL" "DISTINCT")
  /\ exists held new join_keyword,
       FlagConflict "ALL" "DISTINCT" = FlagConflict held new
       /\ (held = "DISTINCT" \/ held = "ALL")
       /\ (new = "DISTINCT" \/ new = "ALL")
       /\ Query.resolve "SELECT DISTINCT" = Return (SELECT, new, join_keyword).
Proof.
  intros self.
  assert (Hreach : reachable self) by (apply reachable_add, reachable_init).
  assert (Hraise : (Query.add self "SELECT DISTINCT" []).2
                   = Raise (FlagConflict "ALL" "DISTINCT"))
    by (vm_compute; reflexivity).
  split; [exact Hreach|]. split; [exact Hraise|].
  destruct (add_exceptions self "SELECT DISTINCT" [] _ Hreach Hraise)
    as [[H _]|[[H _]|[H|(bad & H & _)]]];
    [discriminate H|discriminate H|exact H|discriminate H].
Defined.

(** ** Fluent accessors *)

Lemma isupper_from_lower cased name :
  has_lower name = true -> PyStr.isupper_from cased name = false.
Proof.
  revert cased. induction name as [|c name IH]; intros cased; simpl;
    [discriminate|].
  destruct (PyStr.islower_char c); [reflexivity|]. simpl. apply IH.
Qed.

(** X8: the accessor named after a keyword, or after a join marker of
    [JOIN_ALIASES], with its spaces written as underscores, is [add] with
    that keyword or marker: so for the eight keywords and the six
    markers. *)
Theorem fluent_accessors self args :
  (forall keyword,
     Query.call self (PyStr.replace (SQLKeyword_value keyword) " " "_") args
     = Query.add self (SQLKeyword_value keyword) args)
  /\ (forall marker,
        marker ∈ Query.JOIN_ALIASES.*1 ->
        Query.call self (PyStr.replace marker " " "_") args
        = Query.add self marker args).
Proof.
  split.
  - intros keyword. unfold Query.call.
    assert (H : Query.__getattr__
                  (PyStr.replace (SQLKeyword_value keyword) " " "_")
                = Return (SQLKeyword_value keyword))
      by (destruct keyword; vm_compute; reflexivity).
    rewrite H. reflexivity.
  - intros marker Hin. unfold Query.call.
    assert (H : Query.__getattr__ (PyStr.replace marker " " "_")
                = Return marker).
    { unfold Query.JOIN_ALIASES in Hin. cbn in Hin.
      repeat (apply elem_of_cons in Hin as [->|Hin];
              [vm_compute; reflexivity|]).
      destruct (not_elem_of_nil _ Hin). }
    rewrite H. reflexivity.
Qed.

Lemma fluent_accessors_witness :
  "LEFT JOIN" ∈ Query.JOIN_ALIASES.*1
  /\ Query.call Query.init "LEFT_JOIN" [Plain (PyStrV "posts p")]
     = Query.add Query.init "LEFT JOIN" [Plain (PyStrV "posts p")].
Proof.
  assert (Hin : "LEFT JOIN" ∈ Query.JOIN_ALIASES.*1)
    by (cbn; do 2 apply list_elem_of_further; apply list_elem_of_here).
  split; [exact Hin|].
  exact (proj2 (fluent_accessors Query.init [Plain (PyStrV "posts p")])
           "LEFT JOIN" Hin).
Defined.

(** X9: a name that is no attribute of the builder and has a lowercase
    character is no accessor: the call raises [AttributeError] and [add]
    is not reached, so the builder is as it was. *)
Theorem lowercase_name_not_dispatched self name args :
  name ∉ Query.attributes ->
  has_lower name = true ->
  Query.call self name args = (self, Raise (AttributeError name)).
Proof.
  intros _ Hlower. unfold Query.call, Query.__getattr__, PyStr.isupper.
  rewrite (isupper_from_lower _ _ Hlower). reflexivity.
Qed.

Lemma lowercase_name_not_dispatched_witness :
  ("Mixed_Case" ∉ Query.attributes)
  /\ has_lower "Mixed_Case" = true
  /\ Query.call Query.init "Mixed_Case" [Plain (PyStrV "x")]
     = (Query.init, Raise (AttributeError "Mixed_Case")).
Proof.
  assert (Hfree : "Mixed_Case" ∉ Query.attributes).
  { apply (bool_decide_unpack _). vm_compute. exact I. }
  assert (Hlower : has_lower "Mixed_Case" = true) by reflexivity.
  split; [exact Hfree|]. split; [exact Hlower|].
  exact (lowercase_name_not_dispatched Query.init "Mixed_Case"
           [Plain (PyStrV "x")] Hfree Hlower).
Defined.

(** ** The elements of a reachable builder *)

Lemma lstrip_starts s : starts_with_space (PyStr.lstrip s) = false.
Proof.
  induction s as [|c s IH]; simpl; [reflexivity|].
  destruct (PyStr.isspace_char c) eqn:Hc; [exact IH|]. simpl. exact Hc.
Qed.

Lemma rstrip_ends s : ends_with_space (PyStr.rstrip s) = false.
Proof.
  induction s as [|c s IH]; simpl; [reflexivity|].
  destruct (PyStr.rstrip s) as [|c' r].
  - destruct (PyStr.isspace_char c) eqn:Hc; simpl; [reflexivity|exact Hc].
  - exact IH.
Qed.

Lemma lstrip_ends s :
  ends_with_space s = false -> ends_with_space (PyStr.lstrip s) = false.
Proof.
  induction s as [|c s IH]; simpl; [reflexivity|].
  destruct (PyStr.isspace_char c) eqn:Hc.
  - destruct s as [|c' s]; [reflexivity|]. exact IH.
  - simpl. destruct s; [rewrite Hc|]; auto.
Qed.

Lemma normalize_trimmed text :
  starts_with_space (_normalize_sql text) = false
  /\ ends_with_space (_normalize_sql text) = false.
Proof.
  unfold _normalize_sql, PyStr.strip. split.
  - apply lstrip_starts.
  - apply lstrip_ends, rstrip_ends.
Qed.

Lemma resolve_join_keyword clause_name keyword flag join_keyword :
  Query.resolve clause_name = Return (keyword, flag, join_keyword) ->
  join_keyword <> "" ->
  keyword = FROM /\ PyStr.contains join_keyword "JOIN" = true.
Proof.
  intros Hresolve Htag.
  destruct (PyStr.contains clause_name "JOIN") eqn:Hjoin.
  - rewrite (resolve_join _ Hjoin) in Hresolve.
    injection Hresolve as <- <- <-. auto.
  - unfold Query.resolve in Hresolve.
    rewrite resolve_join_alias_join, Hjoin in Hresolve.
    destruct (Query._parse_flag clause_name) as [[actual flag']|];
      [|discriminate].
    destruct (SQLKeyword_of_value actual); [|discriminate].
    injection Hresolve as _ _ <-. destruct (Htag eq_refl).
Qed.

Lemma created_sound clause_name keyword flag join_keyword arg element :
  Query.resolve clause_name = Return (keyword, flag, join_keyword) ->
  created keyword join_keyword arg element ->
  element_sound keyword element.
Proof.
  intros Hresolve Hcreated.
  assert (Hok : accepted_fragment arg = true).
  { unfold created in Hcreated. rewrite create_cases in Hcreated.
    destruct (accepted_fragment arg); [reflexivity|discriminate]. }
  pose proof (created_element_of keyword join_keyword arg Hok) as Hof.
  unfold created in Hcreated, Hof. rewrite Hcreated in Hof.
  injection Hof as ->.
  unfold element_sound.
  destruct arg as [text|items|items]; simpl;
    repeat split;
    try apply normalize_trimmed;
    try apply (resolve_join_keyword _ _ _ _ Hresolve);
    try assumption.
Qed.

Lemma reachable_elements_sound self keyword clause :
  reachable self ->
  Query._clauses self !! keyword = Some clause ->
  Forall (element_sound keyword) (ClauseCollection.elements clause).
Proof.
  intros Hreach. revert keyword clause.
  induction Hreach as [|self clause_name args Hreach IH];
    intros keyword clause Hlookup.
  - destruct (init_flags_sound keyword) as (clause0 & Hinit & _).
    assert (Hfresh : Query._clauses Query.init !! keyword
                     = Some ClauseCollection.init)
      by (destruct keyword; vm_compute; reflexivity).
    rewrite Hfresh in Hlookup. injection Hlookup as <-. constructor.
  - destruct (Query.add self clause_name args) as [self' result] eqn:Hadd.
    simpl in Hlookup. apply add_cases in Hadd
      as [(e & _ & -> & _)
         |[(k & f & jk & _ & _ & -> & _)
          |[(k & f & jk & c & h & _ & _ & _ & _ & _ & -> & _)
           |(k & f & jk & c & c' & Hresolve & Hlookup' & _ & Hloop & ->)]]];
      try (apply IH; exact Hlookup).
    destruct (decide (k = keyword)) as [->|Hne].
    + rewrite store_lookup in Hlookup. injection Hlookup as <-.
      destruct (add_elements_grows
                  {| ClauseCollection.elements :=
                       ClauseCollection.elements c;
                     ClauseCollection.flag :=
                       if PyStr.truthy f then Some f
                       else ClauseCollection.flag c |}
                  keyword jk args) as (consumed & added & Hall & _ & Hgrow).
      rewrite Hloop in Hgrow. simpl in Hgrow. rewrite Hgrow. simpl.
      apply Forall_app. split; [apply (IH _ _ Hlookup')|].
      clear -Hall Hresolve. induction Hall as [|arg element ? ? Hone _ IHall];
        constructor; [|exact IHall].
      exact (created_sound _ _ _ _ _ _ Hresolve Hone).
    + rewrite (store_lookup_ne _ _ _ _ Hne) in Hlookup.
      apply IH, Hlookup.
Qed.

(** X10: what every element of a reachable builder looks like, failed
    calls included.  Its text and its alias neither begin nor end with a
    whitespace character; it is a subquery exactly when it is in the
    clause store of [WITH]; and when it has a join keyword it is in the
    clause store of [FROM] and its join keyword contains [JOIN]. *)
Theorem reachable_elements self keyword clause :
  reachable self ->
  Query._clauses self !! keyword = Some clause ->
  Forall (element_sound keyword) (ClauseCollection.elements clause).
Proof. apply reachable_elements_sound. Qed.

Lemma reachable_elements_witness :
  let self :=
    (Query.add
       (Query.add Query.init "FROM" [Plain (PyStrV "  users u ")]).1
       "LEFT JOIN" [Plain (PyStrV "posts p"); Plain (PyInt (mk_int 3 eq_refl))]).1 in
  let clause :=
    {| ClauseCollection.elements :=
         [element_of FROM "" (Plain (PyStrV "users u"));
          element_of FROM "LEFT JOIN" (Plain (PyStrV "posts p"))];
       ClauseCollection.flag := None |} in
  reachable self
  /\ Query._clauses self !! FROM = Some clause
  /\ Forall (element_sound FROM) (ClauseCollection.elements clause).
Proof.
  intros self clause.
  assert (Hreach : reachable self)
    by (do 2 apply reachable_add; apply reachable_init).
  assert (Hlookup : Query._clauses self !! FROM = Some clause)
    by (vm_compute; reflexivity).
  split; [exact Hreach|]. split; [exact Hlookup|].
  exact (reachable_elements self FROM clause Hreach Hlookup).
Defined.

(** ** Normalising and indenting text *)

Lemma rstrip_fixed s : ends_with_space s = false -> PyStr.rstrip s = s.
Proof.
  induction s as [|c s IH]; simpl; [reflexivity|].
  destruct s as [|c' s].
  - simpl. intros ->. reflexivity.
  - intros H. rewrite (IH H). reflexivity.
Qed.

Lemma lstrip_fixed s : starts_with_space s = false -> PyStr.lstrip s = s.
Proof. destruct s as [|c s]; simpl; [reflexivity|]. intros ->. reflexivity. Qed.

Lemma linebreak_lf c :
  PyStr.is_linebreak c = false -> (PyStr.code c =? 10)%N = false.
Proof.
  unfold PyStr.is_linebreak.
  destruct (N.eqb_spec (PyStr.code c) 10) as [->|]; [discriminate|reflexivity].
Qed.

Lemma split_lf_line s : no_linebreak s = true -> PyStr.split_lf s = [s].
Proof.
  induction s as [|c s IH]; simpl; [reflexivity|].
  intros H. apply andb_true_iff in H as [Hc Hs].
  apply negb_true_iff in Hc. rewrite (linebreak_lf _ Hc), (IH Hs).
  reflexivity.
Qed.

Lemma blank_is_space c : Textwrap.is_blank c = true -> PyStr.isspace_char c = true.
Proof.
  unfold Textwrap.is_blank, PyStr.isspace_char. intros H.
  apply orb_true_iff in H as [H|H]; apply N.eqb_eq in H; rewrite H;
    reflexivity.
Qed.

Lemma dedent_line s :
  no_linebreak s = true -> starts_with_space s = false ->
  Textwrap.dedent s = s.
Proof.
  intros Hline Hstart. unfold Textwrap.dedent. rewrite (split_lf_line _ Hline).
  destruct s as [|c s]; [reflexivity|]. simpl in Hstart.
  assert (Hblank : Textwrap.is_blank c = false).
  { destruct (Textwrap.is_blank c) eqn:H; [|reflexivity].
    apply blank_is_space in H. congruence. }
  cbn [map Textwrap.whitespace_only PyStr.truthy Textwrap.all_blank andb].
  rewrite Hblank. cbn [andb omap list_omap].
  unfold Textwrap.leading_whitespace.
  cbn [Textwrap.leading_blanks]. rewrite Hblank. reflexivity.
Qed.

(** X11: a text of one line that neither begins nor ends with a whitespace
    character is stored as it is: [_normalize_sql] returns it unchanged. *)
Theorem normalize_clean_line s :
  no_linebreak s = true ->
  starts_with_space s = false ->
  ends_with_space s = false ->
  _normalize_sql (PyStrV s) = s.
Proof.
  intros Hline Hstart Hend. unfold _normalize_sql, PyStr.strip. simpl py_str.
  rewrite (rstrip_fixed _ Hend), (dedent_line _ Hline Hstart).
  rewrite (rstrip_fixed _ Hend). apply lstrip_fixed, Hstart.
Qed.

Lemma normalize_clean_line_witness :
  no_linebreak "COUNT(*) as n" = true
  /\ starts_with_space "COUNT(*) as n" = false
  /\ ends_with_space "COUNT(*) as n" = false
  /\ _normalize_sql (PyStrV "COUNT(*) as n") = "COUNT(*) as n".
Proof.
  split; [reflexivity|]. split; [reflexivity|]. split; [reflexivity|].
  apply (normalize_clean_line "COUNT(*) as n"); reflexivity.
Defined.

Lemma str_app_cons x (a b : string) : String x a +:+ b = String x (a +:+ b).
Proof. reflexivity. Qed.

Lemma str_app_assoc (a b c : string) : (a +:+ b) +:+ c = a +:+ b +:+ c.
Proof.
  induction a as [|x a IH]; [reflexivity|].
  rewrite !str_app_cons, IH. reflexivity.
Qed.

Lemma str_app_nil_r (a : string) : a +:+ "" = a.
Proof.
  induction a as [|x a IH]; [reflexivity|].
  rewrite str_app_cons, IH. reflexivity.
Qed.

Lemma all_space_app a b :
  PyStr.all_space (a +:+ b) = PyStr.all_space a && PyStr.all_space b.
Proof.
  induction a as [|x a IH]; [reflexivity|].
  rewrite str_app_cons. cbn [PyStr.all_space].
  rewrite IH, andb_assoc. reflexivity.
Qed.

Lemma lstrip_truthy s :
  PyStr.truthy (PyStr.lstrip s) = negb (PyStr.all_space s).
Proof.
  induction s as [|c s IH]; simpl; [reflexivity|].
  destruct (PyStr.isspace_char c); [exact IH|reflexivity].
Qed.

Lemma rstrip_all_space s :
  PyStr.all_space (PyStr.rstrip s) = PyStr.all_space s.
Proof.
  induction s as [|c s IH]; simpl; [reflexivity|].
  destruct (PyStr.rstrip s) as [|c' r].
  - simpl in IH. rewrite <- IH.
    destruct (PyStr.isspace_char c) eqn:Hc; cbn [PyStr.all_space];
      rewrite ?Hc; reflexivity.
  - cbn [PyStr.all_space]. cbn [PyStr.all_space] in IH. rewrite IH.
    reflexivity.
Qed.

(** [line.strip()] is true exactly for a line with a character that is no
    whitespace. *)
Lemma strip_truthy s :
  PyStr.truthy (PyStr.strip s) = negb (PyStr.all_space s).
Proof. unfold PyStr.strip. rewrite lstrip_truthy, rstrip_all_space. reflexivity. Qed.

Lemma splitlines_line line rest :
  no_linebreak line = true ->
  PyStr.splitlines_keepends (line +:+ LF +:+ rest)
  = (line +:+ LF) :: PyStr.splitlines_keepends rest.
Proof.
  induction line as [|c line IH]; intros Hline.
  - destruct rest; reflexivity.
  - cbn [no_linebreak] in Hline. apply andb_true_iff in Hline as [Hc Hline].
    apply negb_true_iff in Hc.
    rewrite str_app_cons. cbn [PyStr.splitlines_keepends]. rewrite Hc.
    rewrite (IH Hline). reflexivity.
Qed.

Lemma splitlines_last line :
  no_linebreak line = true ->
  PyStr.splitlines_keepends line
  = if PyStr.truthy line then [line] else [].
Proof.
  induction line as [|c line IH]; intros Hline; [reflexivity|].
  cbn [no_linebreak] in Hline. apply andb_true_iff in Hline as [Hc Hline].
  apply negb_true_iff in Hc.
  cbn [PyStr.splitlines_keepends PyStr.truthy]. rewrite Hc, (IH Hline).
  destruct line; reflexivity.
Qed.

Lemma join_empty_cons x parts :
  PyStr.join "" (x :: parts) = x +:+ PyStr.join "" parts.
Proof.
  destruct parts as [|y parts]; simpl; [rewrite str_app_nil_r|]; reflexivity.
Qed.

Lemma indent_piece prefix line :
  (if PyStr.truthy (PyStr.strip (line +:+ LF))
   then prefix +:+ line +:+ LF else line +:+ LF)
  = indented_line prefix line +:+ LF.
Proof.
  rewrite strip_truthy, all_space_app. unfold indented_line.
  change (PyStr.all_space LF) with true. rewrite andb_true_r.
  destruct (PyStr.all_space line); simpl; [reflexivity|].
  rewrite str_app_assoc. reflexivity.
Qed.

Lemma indent_join_lines prefix lines :
  Forall (fun line => no_linebreak line = true) lines ->
  Textwrap.indent (PyStr.join LF lines) prefix
  = PyStr.join LF (map (indented_line prefix) lines).
Proof.
  unfold Textwrap.indent.
  induction 1 as [|line rest Hline Hrest IH]; [reflexivity|].
  destruct rest as [|next rest].
  - cbn [PyStr.join map]. rewrite (splitlines_last _ Hline).
    unfold indented_line. destruct line as [|c line]; [reflexivity|].
    cbn [PyStr.truthy map PyStr.join]. rewrite strip_truthy.
    destruct (PyStr.all_space (String c line)); reflexivity.
  - change (PyStr.join LF (line :: next :: rest))
      with (line +:+ LF +:+ PyStr.join LF (next :: rest)).
    rewrite (splitlines_line _ _ Hline). cbn [map].
    rewrite join_empty_cons, IH, indent_piece, str_app_assoc.
    reflexivity.
Qed.

(** X12: a text of several lines keeps its lines when it is indented.
    For lines free of line ends, [_indent_text] of the lines joined by
    line feeds is the lines joined by line feeds again, each behind the
    margin of spaces, except the empty and the whitespace-only lines,
    which stay as they are. *)
Theorem indent_text_lines lines spaces :
  Forall (fun line => no_linebreak line = true) lines ->
  _indent_text (PyStr.join LF lines) spaces
  = PyStr.join LF
      (map (indented_line (PyStr.repeat_str " " spaces)) lines).
Proof. intros Hlines. unfold _indent_text. apply indent_join_lines, Hlines. Qed.

Lemma indent_text_lines_witness :
  let lines := ["id IN ("; "    SELECT user_id"; ""; ")"] in
  Forall (fun line => no_linebreak line = true) lines
  /\ _indent_text (PyStr.join LF lines) 4
     = PyStr.join LF
         ["    id IN ("; "        SELECT user_id"; ""; "    )"].
Proof.
  intros lines.
  assert (Hlines : Forall (fun line => no_linebreak line = true) lines)
    by (repeat constructor).
  split; [exact Hlines|].
  exact (indent_text_lines lines 4 Hlines).
Defined.

(** ** Clause stores as containers *)

Lemma add_element_fold clause added :
  foldl ClauseCollection.add_element clause added
  = {| ClauseCollection.elements := ClauseCollection.elements clause ++ added;
       ClauseCollection.flag := ClauseCollection.flag clause |}.
Proof.
  revert clause. induction added as [|element added IH]; intros clause; simpl.
  - rewrite app_nil_r. destruct clause; reflexivity.
  - rewrite IH. unfold ClauseCollection.add_element. simpl.
    rewrite <- app_assoc. reflexivity.
Qed.

(** X13: a clause store is a list that only grows at its end.  After any
    number of [add_element] calls, iterating over the store gives what it
    held followed by the added elements in the order of the calls, [len]
    counts them all, the flag is as before, and [is_empty] holds exactly
    when the store held nothing and nothing was added. *)
Theorem clause_collection_container clause added :
  let clause' := foldl ClauseCollection.add_element clause added in
  ClauseCollection.__iter__ clause' = ClauseCollection.__iter__ clause ++ added
  /\ ClauseCollection.__len__ clause'
     = ClauseCollection.__len__ clause + length added
  /\ ClauseCollection.flag clause' = ClauseCollection.flag clause
  /\ (ClauseCollection.is_empty clause' = true
      <-> ClauseCollection.__iter__ clause = [] /\ added = []).
Proof.
  cbv zeta. rewrite add_element_fold.
  unfold ClauseCollection.__iter__, ClauseCollection.__len__,
    ClauseCollection.is_empty. simpl.
  split; [reflexivity|]. split; [apply length_app|]. split; [reflexivity|].
  rewrite Nat.eqb_eq, length_app. split.
  - intros H.
    destruct (ClauseCollection.elements clause), added;
      simpl in H; try discriminate H; auto.
  - intros [-> ->]. reflexivity.
Qed.

(** ** What [build] returns *)

Lemma keyword_line_nonempty keyword clause :
  Query.keyword_line keyword clause <> "".
Proof.
  unfold Query.keyword_line.
  destruct (ClauseCollection.flag clause) as [flag|];
    [destruct (PyStr.truthy flag)|]; destruct keyword; discriminate.
Qed.

Lemma join_head_nonempty x rest :
  x <> "" -> PyStr.join LF (x :: rest) <> "".
Proof.
  intros Hx. destruct x as [|c x]; [destruct (Hx eq_refl)|].
  destruct rest; simpl; [discriminate|].
  rewrite str_app_cons. discriminate.
Qed.

Lemma clause_parts_head keyword clause x parts :
  Query.clause_parts keyword clause = x :: parts ->
  x = Query.keyword_line keyword clause.
Proof.
  unfold Query.clause_parts.
  destruct (ClauseCollection.is_empty clause); [discriminate|].
  intros [= <- _]. reflexivity.
Qed.

Lemma clause_parts_nil keyword clause :
  Query.clause_parts keyword clause = [] <->
  ClauseCollection.elements clause = [].
Proof.
  unfold Query.clause_parts, ClauseCollection.is_empty.
  destruct (ClauseCollection.elements clause); simpl; split;
    try discriminate; reflexivity.
Qed.

Lemma concat_parts_empty {K} (f : K -> list string) (l : list K) :
  (forall k x parts, f k = x :: parts -> x <> "") ->
  PyStr.join LF (concat (map f l)) = "" ->
  forall k, k ∈ l -> f k = [].
Proof.
  intros Hhead. induction l as [|k0 l IH]; simpl; intros Hjoin k Hin.
  - destruct (not_elem_of_nil _ Hin).
  - destruct (f k0) as [|x parts] eqn:Hk0.
    + apply elem_of_cons in Hin as [->|Hin]; [exact Hk0|].
      apply IH; assumption.
    + destruct (join_head_nonempty x (parts ++ concat (map f l))
                  (Hhead _ _ _ Hk0) Hjoin).
Qed.

Lemma concat_parts_nil {K} (f : K -> list string) (l : list K) :
  (forall k, k ∈ l -> f k = []) -> concat (map f l) = [].
Proof.
  induction l as [|k0 l IH]; simpl; intros Hall; [reflexivity|].
  rewrite (Hall k0 (list_elem_of_here _ _)). simpl.
  apply IH. intros k Hin. apply Hall, list_elem_of_further, Hin.
Qed.

Lemma SQLKeyword_members_all keyword : keyword ∈ SQLKeyword_members.
Proof.
  unfold SQLKeyword_members.
  destruct keyword;
    repeat first [apply list_elem_of_here | apply list_elem_of_further].
Qed.

Lemma reachable_build self :
  reachable self ->
  Query.build self
  = Return (PyStr.join LF
              (concat (map (fun keyword =>
                              from_option (Query.clause_parts keyword) []
                                (Query._clauses self !! keyword))
                           SQLKeyword_members))).
Proof.
  intros Hreach. unfold Query.build.
  rewrite build_parts_enumeration; [reflexivity|].
  intros keyword.
  destruct (reachable_flags_sound _ Hreach keyword) as (clause & -> & _).
  eauto.
Qed.

(** X14: [build] on a reachable builder returns the empty string exactly
    when no clause store has an element: flags alone give no output, and
    one element anywhere gives some. *)
Theorem build_empty_iff self :
  reachable self ->
  (Query.build self = Return ""
   <-> forall keyword clause,
         Query._clauses self !! keyword = Some clause ->
         ClauseCollection.elements clause = []).
Proof.
  intros Hreach. rewrite (reachable_build _ Hreach). split.
  - intros [= Hjoin] keyword clause Hlookup.
    apply (clause_parts_nil keyword).
    assert (Hhead : forall k x parts,
              from_option (Query.clause_parts k) []
                (Query._clauses self !! k) = x :: parts -> x <> "").
    { intros k x parts H.
      destruct (Query._clauses self !! k) as [c|]; simpl in H;
        [|discriminate].
      rewrite (clause_parts_head _ _ _ _ H). apply keyword_line_nonempty. }
    pose proof (concat_parts_empty
                  (fun k => from_option (Query.clause_parts k) []
                              (Query._clauses self !! k))
                  SQLKeyword_members Hhead Hjoin keyword
                  (SQLKeyword_members_all keyword)) as Hempty.
    cbv beta in Hempty.
    rewrite Hlookup in Hempty. exact Hempty.
  - intros Hnone. rewrite concat_parts_nil; [reflexivity|].
    intros keyword _.
    destruct (Query._clauses self !! keyword) as [clause|] eqn:Hlookup;
      [|reflexivity].
    simpl. apply clause_parts_nil, (Hnone keyword clause Hlookup).
Qed.

Lemma build_empty_iff_witness :
  let self := (Query.add Query.init "SELECT DISTINCT" []).1 in
  reachable self
  /\ (Query.build self = Return ""
      <-> forall keyword clause,
            Query._clauses self !! keyword = Some clause ->
            ClauseCollection.elements clause = []).
Proof.
  intros self.
  assert (Hreach : reachable self) by (apply reachable_add, reachable_init).
  split; [exact Hreach|]. exact (build_empty_iff self Hreach).
Defined.

Lemma first_seen_known seen keys :
  Forall (fun key => key ∈ seen) keys -> first_seen seen keys = [].
Proof.
  induction 1 as [|key keys Hkey _ IH]; simpl; [reflexivity|].
  rewrite bool_decide_eq_true_2 by exact Hkey. exact IH.
Qed.

Lemma tagged_with_all join_key elements :
  Forall (fun element => QueryElement.join_keyword element = join_key)
         elements ->
  tagged_with join_key elements = elements.
Proof.
  induction 1 as [|element elements Hone _ IH]; [reflexivity|].
  rewrite (tagged_with_here _ _ _ Hone), IH. reflexivity.
Qed.

(** X15: how a clause other than [FROM] is rendered in a reachable
    builder.  When its store has elements, the clause gives exactly two
    parts: the keyword, followed by a space and the flag when one is set;
    and one body, the formatted elements in their order joined by [ AND ]
    for [WHERE] and [HAVING] and by a comma and a space for the other
    keywords, indented by four spaces. *)
Theorem plain_clause_parts self keyword clause :
  reachable self ->
  Query._clauses self !! keyword = Some clause ->
  keyword <> FROM ->
  ClauseCollection.elements clause <> [] ->
  Query.clause_parts keyword clause
  = [match ClauseCollection.flag clause with
     | Some flag => SQLKeyword_value keyword +:+ " " +:+ flag
     | None => SQLKeyword_value keyword
     end;
     _indent_text
       (PyStr.join
          (if bool_decide (keyword ∈ [WHERE; HAVING]) then " AND " else ", ")
          (map (Query._format_element keyword)
               (ClauseCollection.elements clause))) 4].
Proof.
  intros Hreach Hlookup Hplain Hsome.
  pose proof (reachable_elements_sound _ _ _ Hreach Hlookup) as Hsound.
  assert (Huntagged : Forall (fun element =>
                                QueryElement.join_keyword element = "")
                             (ClauseCollection.elements clause)).
  { eapply Forall_impl; [exact Hsound|].
    intros element (_ & _ & _ & _ & _ & Htag).
    destruct (decide (QueryElement.join_keyword element = "")) as [|Hne];
      [assumption|]. destruct (Htag Hne) as [-> _]. destruct (Hplain eq_refl). }
  unfold Query.clause_parts, ClauseCollection.is_empty.
  destruct (ClauseCollection.elements clause) as [|first others] eqn:Hels;
    [destruct (Hsome eq_refl)|].
  cbn [length Nat.eqb]. rewrite group_elements_by_join_spec.
  rewrite first_seen_known.
  2:{ apply Forall_fmap. eapply Forall_impl; [exact Huntagged|].
      intros element Htag. simpl. rewrite Htag. apply list_elem_of_here. }
  rewrite (tagged_with_all _ _ Huntagged).
  cbn [map concat app]. rewrite group_parts_default. cbn [app]. f_equal.
  - unfold Query.keyword_line.
    destruct (reachable_flags_sound _ Hreach keyword)
      as (clause0 & Hlookup0 & Hflag).
    rewrite Hlookup in Hlookup0. injection Hlookup0 as <-.
    destruct Hflag as [->|[_ [-> | ->]]]; reflexivity.
  - f_equal. f_equal. f_equal. destruct keyword; reflexivity.
Qed.

Lemma plain_clause_parts_witness :
  let self :=
    (Query.add Query.init "WHERE"
       [Plain (PyStrV "a = 1"); Plain (PyStrV "b = 2")]).1 in
  let clause :=
    {| ClauseCollection.elements :=
         [element_of WHERE "" (Plain (PyStrV "a = 1"));
          element_of WHERE "" (Plain (PyStrV "b = 2"))];
       ClauseCollection.flag := None |} in
  reachable self
  /\ Query._clauses self !! WHERE = Some clause
  /\ WHERE <> FROM
  /\ ClauseCollection.elements clause <> []
  /\ Query.clause_parts WHERE clause = ["WHERE"; "    a = 1 AND b = 2"].
Proof.
  intros self clause.
  assert (Hreach : reachable self) by (apply reachable_add, reachable_init).
  assert (Hlookup : Query._clauses self !! WHERE = Some clause)
    by (vm_compute; reflexivity).
  assert (Hplain : WHERE <> FROM) by discriminate.
  assert (Hsome : ClauseCollection.elements clause <> []) by discriminate.
  split; [exact Hreach|]. split; [exact Hlookup|]. split; [exact Hplain|].
  split; [exact Hsome|].
  rewrite (plain_clause_parts self WHERE clause Hreach Hlookup Hplain Hsome).
  vm_compute. reflexivity.
Defined.

(** ** Fragments written with the indentation of the calling code *)

Lemma blank_no_linebreak c :
  Textwrap.is_blank c = true -> PyStr.is_linebreak c = false.
Proof.
  unfold Textwrap.is_blank, PyStr.is_linebreak. intros H.
  apply orb_true_iff in H as [H|H]; apply N.eqb_eq in H; rewrite H;
    reflexivity.
Qed.

Lemma all_blank_no_linebreak margin :
  Textwrap.all_blank margin = true -> no_linebreak margin = true.
Proof.
  induction margin as [|c margin IH]; simpl; [reflexivity|].
  intros H. apply andb_true_iff in H as [Hc H].
  rewrite (blank_no_linebreak _ Hc), (IH H). reflexivity.
Qed.

Lemma no_linebreak_app a b :
  no_linebreak (a +:+ b) = no_linebreak a && no_linebreak b.
Proof.
  induction a as [|x a IH]; [reflexivity|].
  rewrite str_app_cons. cbn [no_linebreak]. rewrite IH, andb_assoc.
  reflexivity.
Qed.

Lemma all_blank_app a b :
  Textwrap.all_blank (a +:+ b) = Textwrap.all_blank a && Textwrap.all_blank b.
Proof.
  induction a as [|x a IH]; [reflexivity|].
  rewrite str_app_cons. cbn [Textwrap.all_blank]. rewrite IH, andb_assoc.
  reflexivity.
Qed.

Lemma str_length_app a b :
  String.length (a +:+ b) = String.length a + String.length b.
Proof.
  induction a as [|x a IH]; [reflexivity|].
  rewrite str_app_cons. simpl. rewrite IH. reflexivity.
Qed.

Lemma drop_app a b n :
  PyStr.drop (String.length a + n) (a +:+ b) = PyStr.drop n b.
Proof.
  induction a as [|x a IH]; [reflexivity|].
  rewrite str_app_cons. simpl. exact IH.
Qed.

Lemma startswith_app_self a b : PyStr.startswith (a +:+ b) a = true.
Proof.
  induction a as [|x a IH]; [destruct b; reflexivity|].
  rewrite str_app_cons. cbn [PyStr.startswith].
  rewrite Ascii.eqb_refl, IH. reflexivity.
Qed.

Lemma split_lf_app_line line rest :
  no_linebreak line = true ->
  PyStr.split_lf (line +:+ LF +:+ rest) = line :: PyStr.split_lf rest.
Proof.
  induction line as [|c line IH]; intros Hline; [reflexivity|].
  cbn [no_linebreak] in Hline. apply andb_true_iff in Hline as [Hc Hline].
  apply negb_true_iff in Hc.
  rewrite str_app_cons. cbn [PyStr.split_lf].
  rewrite (linebreak_lf _ Hc), (IH Hline). reflexivity.
Qed.

(** Splitting at the line feeds undoes joining with line feeds. *)
Lemma split_lf_join lines :
  lines <> [] ->
  Forall (fun line => no_linebreak line = true) lines ->
  PyStr.split_lf (PyStr.join LF lines) = lines.
Proof.
  intros Hsome Hlines. induction Hlines as [|line rest Hline Hrest IH];
    [destruct (Hsome eq_refl)|].
  destruct rest as [|next rest].
  - apply split_lf_line, Hline.
  - change (PyStr.join LF (line :: next :: rest))
      with (line +:+ LF +:+ PyStr.join LF (next :: rest)).
    rewrite (split_lf_app_line _ _ Hline), IH; [reflexivity|discriminate].
Qed.

Lemma not_all_blank body :
  body <> "" -> ends_with_space body = false ->
  Textwrap.all_blank body = false.
Proof.
  induction body as [|c body IH]; intros Hsome Hend; [destruct (Hsome eq_refl)|].
  cbn [Textwrap.all_blank].
  destruct (Textwrap.is_blank c) eqn:Hc; [|reflexivity].
  destruct body as [|c' body].
  - simpl in Hend. apply blank_is_space in Hc. congruence.
  - simpl. apply IH; [discriminate|exact Hend].
Qed.

Lemma leading_blanks_app margin body :
  Textwrap.all_blank margin = true ->
  Textwrap.leading_blanks (margin +:+ body)
  = margin +:+ Textwrap.leading_blanks body.
Proof.
  induction margin as [|c margin IH]; [reflexivity|].
  cbn [Textwrap.all_blank]. intros H. apply andb_true_iff in H as [Hc H].
  rewrite !str_app_cons. cbn [Textwrap.leading_blanks].
  rewrite Hc, (IH H). reflexivity.
Qed.

Lemma drop_leading_blanks body :
  Textwrap.all_blank body = false ->
  PyStr.truthy
    (PyStr.drop (String.length (Textwrap.leading_blanks body)) body) = true.
Proof.
  induction body as [|c body IH]; [discriminate|].
  cbn [Textwrap.all_blank Textwrap.leading_blanks].
  destruct (Textwrap.is_blank c); [|reflexivity]. simpl. exact IH.
Qed.

Lemma leading_whitespace_line margin body :
  Textwrap.all_blank margin = true ->
  Textwrap.all_blank body = false ->
  Textwrap.leading_whitespace (margin +:+ body)
  = Some (margin +:+ Textwrap.leading_blanks body).
Proof.
  intros Hmargin Hbody. unfold Textwrap.leading_whitespace.
  rewrite (leading_blanks_app _ _ Hmargin), str_length_app, drop_app.
  rewrite (drop_leading_blanks _ Hbody). reflexivity.
Qed.

Lemma remove_margin_line margin body :
  Textwrap.remove_margin margin (margin +:+ body) = body.
Proof.
  unfold Textwrap.remove_margin. rewrite startswith_app_self.
  rewrite <- (Nat.add_0_r (String.length margin)). apply drop_app.
Qed.

Lemma rstrip_space_only s : PyStr.all_space s = true -> PyStr.rstrip s = "".
Proof.
  induction s as [|c s IH]; [reflexivity|].
  cbn [PyStr.all_space PyStr.rstrip]. intros H.
  apply andb_true_iff in H as [Hc H]. rewrite (IH H), Hc. reflexivity.
Qed.

Lemma rstrip_app_space s trailing :
  PyStr.all_space trailing = true ->
  PyStr.rstrip (s +:+ trailing) = PyStr.rstrip s.
Proof.
  intros Hspace. induction s as [|c s IH]; [apply rstrip_space_only, Hspace|].
  rewrite str_app_cons. cbn [PyStr.rstrip]. rewrite IH. reflexivity.
Qed.

Lemma ends_with_space_app a b :
  b <> "" -> ends_with_space (a +:+ b) = ends_with_space b.
Proof.
  intros Hb. induction a as [|x a IH]; [reflexivity|].
  rewrite str_app_cons. cbn [ends_with_space].
  destruct (a +:+ b) as [|y r] eqn:Hab; [|exact IH].
  destruct a; [destruct (Hb Hab)|discriminate Hab].
Qed.

Lemma ends_with_space_join lines :
  lines <> [] ->
  Forall (fun line => line <> "" /\ ends_with_space line = false) lines ->
  ends_with_space (PyStr.join LF lines) = false.
Proof.
  intros Hsome Hlines. induction Hlines as [|line rest [_ Hend] Hrest IH];
    [destruct (Hsome eq_refl)|].
  destruct rest as [|next rest]; [exact Hend|].
  change (PyStr.join LF (line :: next :: rest))
    with (line +:+ LF +:+ PyStr.join LF (next :: rest)).
  assert (Hjoin : PyStr.join LF (next :: rest) <> "").
  { apply join_head_nonempty. inversion Hrest as [|? ? [Hnext _] _]; subst.
    exact Hnext. }
  rewrite ends_with_space_app by discriminate.
  rewrite (ends_with_space_app LF _ Hjoin). apply IH. discriminate.
Qed.

Lemma starts_with_space_join first rest :
  first <> "" ->
  starts_with_space (PyStr.join LF (first :: rest)) = starts_with_space first.
Proof.
  intros Hfirst. destruct first as [|c first]; [destruct (Hfirst eq_refl)|].
  destruct rest; reflexivity.
Qed.

(** [dedent] on a text that begins with a line feed and goes on with lines
    that all carry the margin, the first of them nothing else before its
    text. *)
Lemma dedent_margin margin first rest :
  Textwrap.all_blank margin = true ->
  Forall (fun body => no_linebreak body = true /\ body <> ""
                      /\ ends_with_space body = false) (first :: rest) ->
  starts_with_space first = false ->
  Textwrap.dedent
    (LF +:+ PyStr.join LF (map (String.append margin) (first :: rest)))
  = LF +:+ PyStr.join LF (first :: rest).
Proof.
  intros Hmargin Hbodies Hfirst.
  set (bodies := first :: rest) in *.
  assert (Hlines : Forall (fun line => no_linebreak line = true)
                     (map (String.append margin) bodies)).
  { apply Forall_forall. intros line Hin.
    apply list_elem_of_In, in_map_iff in Hin as (body & <- & Hin).
    rewrite Forall_forall in Hbodies.
    destruct (Hbodies body (proj2 (list_elem_of_In _ _) Hin)) as (Hline & _).
    rewrite no_linebreak_app, (all_blank_no_linebreak _ Hmargin), Hline.
    reflexivity. }
  assert (Hkeep : map (fun line => if Textwrap.whitespace_only line
                                   then "" else line)
                    (map (String.append margin) bodies)
                  = map (String.append margin) bodies).
  { rewrite <- (map_id (map (String.append margin) bodies)) at 2.
    rewrite !map_map. apply map_ext_in. intros body Hin.
    rewrite Forall_forall in Hbodies.
    destruct (Hbodies body (proj2 (list_elem_of_In _ _) Hin))
      as (_ & Hsome & Hend).
    unfold Textwrap.whitespace_only.
    rewrite all_blank_app, (not_all_blank _ Hsome Hend), !andb_false_r.
    reflexivity. }
  assert (Hindents : omap Textwrap.leading_whitespace
                       (map (String.append margin) bodies)
                     = map (fun body =>
                              margin +:+ Textwrap.leading_blanks body)
                           bodies).
  { clear -Hmargin Hbodies. induction Hbodies as [|body more Hbody _ IH];
      [reflexivity|].
    destruct Hbody as (_ & Hsome & Hend). cbn [map omap list_omap].
    rewrite (leading_whitespace_line _ _ Hmargin
               (not_all_blank _ Hsome Hend)).
    cbn [omap list_omap] in IH. rewrite IH. reflexivity. }
  assert (Hfold : forall more,
            foldl Textwrap.narrow (Some margin)
              (map (fun body => margin +:+ Textwrap.leading_blanks body) more)
            = Some margin).
  { induction more as [|body more IH]; [reflexivity|].
    cbn [map foldl Textwrap.narrow]. rewrite startswith_app_self.
    exact IH. }
  unfold Textwrap.dedent.
  change (LF +:+ PyStr.join LF (map (String.append margin) bodies))
    with ("" +:+ LF +:+ PyStr.join LF (map (String.append margin) bodies)).
  rewrite (split_lf_app_line "" _ eq_refl).
  assert (Hsome : map (String.append margin) bodies <> [])
    by (unfold bodies; discriminate).
  rewrite (split_lf_join _ Hsome Hlines).
  cbn [map]. change (Textwrap.whitespace_only "") with false. cbv iota.
  rewrite Hkeep. cbn [omap list_omap].
  change (Textwrap.leading_whitespace "") with (@None string). cbv iota.
  fold (omap Textwrap.leading_whitespace (map (String.append margin) bodies)).
  rewrite Hindents. unfold bodies at 1. cbn [map foldl].
  assert (Hlead : Textwrap.leading_blanks first = "").
  { destruct first as [|c first']; [reflexivity|]. simpl in Hfirst.
    cbn [Textwrap.leading_blanks].
    destruct (Textwrap.is_blank c) eqn:Hc; [|reflexivity].
    apply blank_is_space in Hc. congruence. }
  unfold Textwrap.narrow at 2. rewrite Hlead, str_app_nil_r, Hfold.
  assert (Hremoved : map (Textwrap.remove_margin margin)
                       (map (String.append margin) bodies) = bodies).
  { rewrite map_map. rewrite <- (map_id bodies) at 2.
    apply map_ext. intros body. apply remove_margin_line. }
  destruct margin as [|c margin].
  - cbn [PyStr.truthy]. cbv iota.
    replace (map (String.append "") bodies) with bodies
      by (symmetry; apply map_id).
    reflexivity.
  - cbn [PyStr.truthy]. cbv iota. cbn [map]. rewrite Hremoved. reflexivity.
Qed.

(** X16: a fragment written over several lines with the indentation of
    the calling code is stored without that indentation.  When the text is
    a line feed, then lines that all begin with the same margin of spaces
    and tabs, then whitespace, [_normalize_sql] returns the lines without
    the margin, joined by line feeds; the lines keep what indentation they
    have beyond the margin.  The lines are to be free of line ends, not
    empty and without whitespace at their end, and the first one is to
    begin with its text right after the margin. *)
Theorem normalize_indented_lines margin first rest trailing :
  Textwrap.all_blank margin = true ->
  PyStr.all_space trailing = true ->
  Forall (fun body => no_linebreak body = true /\ body <> ""
                      /\ ends_with_space body = false) (first :: rest) ->
  starts_with_space first = false ->
  _normalize_sql
    (PyStrV (LF +:+ PyStr.join LF (map (String.append margin) (first :: rest))
             +:+ trailing))
  = PyStr.join LF (first :: rest).
Proof.
  intros Hmargin Htrailing Hbodies Hfirst.
  assert (Hfirst' : first <> "").
  { inversion Hbodies as [|? ? (_ & H & _) _]; exact H. }
  assert (Hends : Forall (fun line => line <> ""
                                      /\ ends_with_space line = false)
                    (first :: rest)).
  { eapply Forall_impl; [exact Hbodies|]. intros body (_ & ? & ?). auto. }
  assert (Hends' : Forall (fun line => line <> ""
                                       /\ ends_with_space line = false)
                     (map (String.append margin) (first :: rest))).
  { apply Forall_forall. intros line Hin.
    apply list_elem_of_In, in_map_iff in Hin as (body & <- & Hin).
    rewrite Forall_forall in Hends.
    destruct (Hends body (proj2 (list_elem_of_In _ _) Hin)) as (Hsome & Hend).
    split.
    - intros Hnil. destruct margin; [exact (Hsome Hnil)|discriminate Hnil].
    - rewrite (ends_with_space_app _ _ Hsome). exact Hend. }
  assert (Hjoin : forall lines,
            lines <> [] ->
            Forall (fun line => line <> "" /\ ends_with_space line = false)
                   lines ->
            ends_with_space (LF +:+ PyStr.join LF lines) = false).
  { intros lines Hsome Hlines.
    rewrite ends_with_space_app; [apply ends_with_space_join; assumption|].
    destruct lines as [|line more]; [destruct (Hsome eq_refl)|].
    apply join_head_nonempty.
    inversion Hlines as [|? ? [H _] _]; exact H. }
  assert (Hsome : first :: rest <> []) by discriminate.
  assert (Hsome' : map (String.append margin) (first :: rest) <> [])
    by (simpl; discriminate).
  unfold _normalize_sql, PyStr.strip. cbn [py_str].
  rewrite <- str_app_assoc, (rstrip_app_space _ _ Htrailing).
  rewrite (rstrip_fixed _ (Hjoin _ Hsome' Hends')).
  rewrite (dedent_margin _ _ _ Hmargin Hbodies Hfirst).
  rewrite (rstrip_fixed _ (Hjoin _ Hsome Hends)).
  change (LF +:+ PyStr.join LF (first :: rest))
    with (String (ascii_of_N 10) (PyStr.join LF (first :: rest))).
  cbn [PyStr.lstrip]. change (PyStr.isspace_char (ascii_of_N 10)) with true.
  cbv iota. apply lstrip_fixed.
  rewrite (starts_with_space_join _ _ Hfirst'). exact Hfirst.
Qed.

Lemma normalize_indented_lines_witness :
  let margin := "        " in
  let bodies := ["SELECT"; "    user_id,"; "    COUNT(*) as n"; "FROM comments"] in
  Textwrap.all_blank margin = true
  /\ PyStr.all_space (LF +:+ margin) = true
  /\ Forall (fun body => no_linebreak body = true /\ body <> ""
                         /\ ends_with_space body = false) bodies
  /\ starts_with_space "SELECT" = false
  /\ _normalize_sql
       (PyStrV (LF +:+ PyStr.join LF (map (String.append margin) bodies)
                +:+ LF +:+ margin))
     = PyStr.join LF bodies.
Proof.
  intros margin bodies.
  assert (Hmargin : Textwrap.all_blank margin = true) by reflexivity.
  assert (Htrailing : PyStr.all_space (LF +:+ margin) = true) by reflexivity.
  assert (Hbodies : Forall (fun body => no_linebreak body = true /\ body <> ""
                                        /\ ends_with_space body = false)
                      bodies).
  { repeat constructor; discriminate. }
  split; [exact Hmargin|]. split; [exact Htrailing|]. split; [exact Hbodies|].
  split; [reflexivity|].
  exact (normalize_indented_lines margin "SELECT"
           ["    user_id,"; "    COUNT(*) as n"; "FROM comments"]
           (LF +:+ margin) Hmargin Htrailing Hbodies eq_refl).
Defined.
